(** * demlabs: a task list page on top of a Dexie table

    Shallow embedding of [src/routes/+page.svelte] (the variant with
    transient notifications) and of the [deleteTask] of the variant with a
    modal confirmation dialog, together with the statements of the
    specification that are settled on them.  Further sections cover the
    rest of the pages: the form and the confirmation of the variant with the
    modal dialog, the variant that uses [alert] and [confirm], the list that
    the markup renders, and the invariants that the events of the page keep.

    Conventions of the embedding.
    - A JavaScript string is the list of its UTF-16 code units.
    - [String.prototype.toLowerCase] is a built-in of the language, it is
      taken as an interface ([CaseMapping]); an instance covering ASCII,
      Latin-1 and basic Cyrillic is given for the concrete scenarios.
    - The Dexie table is the list of its rows in primary key order, with its
      key generator.  Every call to the table is a suspension point of the
      async function: it is recorded, with the page as it is rendered at that
      time, and the environment decides whether it resolves or rejects.
    - An async handler runs from its first to its last statement without
      other handlers interleaved (one user, one tab). *)

From Stdlib Require Import NArith ZArith Ascii String List Bool Lia.
From stdpp Require Import base list.

Local Open Scope N_scope.

(** ** JavaScript strings *)

Definition codeUnit := N.
Definition jsstring := list codeUnit.

(** Decoding of the UTF-8 bytes of a literal of this file into code points. *)
Fixpoint utf8_decode (bs : list N) : list N :=
  match bs with
  | [] => []
  | b0 :: r0 =>
      if b0 <? 128 then b0 :: utf8_decode r0
      else if b0 <? 224 then
        match r0 with
        | b1 :: r1 =>
            N.lor (N.shiftl (N.land b0 31) 6) (N.land b1 63) :: utf8_decode r1
        | [] => [65533]
        end
      else if b0 <? 240 then
        match r0 with
        | b1 :: b2 :: r2 =>
            N.lor (N.shiftl (N.land b0 15) 12)
              (N.lor (N.shiftl (N.land b1 63) 6) (N.land b2 63))
            :: utf8_decode r2
        | _ => [65533]
        end
      else
        match r0 with
        | b1 :: b2 :: b3 :: r3 =>
            N.lor (N.shiftl (N.land b0 7) 18)
              (N.lor (N.shiftl (N.land b1 63) 12)
                 (N.lor (N.shiftl (N.land b2 63) 6) (N.land b3 63)))
            :: utf8_decode r3
        | _ => [65533]
        end
  end.

(** A code point above the basic plane is a surrogate pair. *)
Definition utf16_encode (cp : N) : jsstring :=
  if cp <? 65536 then [cp]
  else
    let v := cp - 65536 in
    [55296 + N.shiftr v 10; 56320 + N.land v 1023].

(** [js "..."] is the JavaScript string written by that literal. *)
Definition js (s : string) : jsstring :=
  concat (map utf16_encode (utf8_decode (map N_of_ascii (list_ascii_of_string s)))).

(** A string is falsy exactly when it is empty. *)
Definition truthy (s : jsstring) : bool :=
  match s with [] => false | _ :: _ => true end.

(** WhiteSpace and LineTerminator of ECMAScript, the code units that
    [String.prototype.trim] strips. *)
Definition isWhiteSpace (c : codeUnit) : bool :=
  ((9 <=? c) && (c <=? 13))
  || (c =? 32) || (c =? 160) || (c =? 5760)
  || ((8192 <=? c) && (c <=? 8202))
  || (c =? 8232) || (c =? 8233) || (c =? 8239) || (c =? 8287)
  || (c =? 12288) || (c =? 65279).

Fixpoint trimStart (s : jsstring) : jsstring :=
  match s with
  | [] => []
  | c :: s' => if isWhiteSpace c then trimStart s' else s
  end.

Definition trimEnd (s : jsstring) : jsstring := rev (trimStart (rev s)).

Definition trim (s : jsstring) : jsstring := trimEnd (trimStart s).

Fixpoint startsWith (s q : jsstring) : bool :=
  match q, s with
  | [], _ => true
  | _ :: _, [] => false
  | c :: q', d :: s' => (c =? d) && startsWith s' q'
  end.

(** [s.includes(q)]: [q] occurs in [s] at some position. *)
Fixpoint includes (s q : jsstring) : bool :=
  startsWith s q
  || match s with
     | [] => false
     | _ :: s' => includes s' q
     end.

(** [String.prototype.toLowerCase], a built-in: all that is used of it is
    that the empty string has no letter to change. *)
Class CaseMapping := {
  toLowerCase : jsstring -> jsstring;
  toLowerCase_empty : toLowerCase [] = []
}.

(** Lower case of one code unit for ASCII, Latin-1 and the Cyrillic block
    U+0400..U+042F; every other code unit is left as it is. *)
Definition lowerUnit (c : codeUnit) : codeUnit :=
  if (65 <=? c) && (c <=? 90) then c + 32
  else if (192 <=? c) && (c <=? 222) && negb (c =? 215) then c + 32
  else if (1024 <=? c) && (c <=? 1039) then c + 80
  else if (1040 <=? c) && (c <=? 1071) then c + 32
  else c.

Definition basicCaseMapping : CaseMapping :=
  {| toLowerCase := map lowerUnit; toLowerCase_empty := eq_refl |}.

(** ** Tasks *)

Inductive Status := active | completed.

Record Task := {
  id : option Z;
  title : jsstring;
  description : option jsstring;
  status : Status
}.

(** ** The derived store [filteredTasks] *)

Section Filtering.
Context {CM : CaseMapping}.

(** The callback of [$tasks.filter]; [undefined] and [''] are falsy. *)
Definition matchesQuery (lowerCaseQuery : jsstring) (task : Task) : bool :=
  includes (toLowerCase (title task)) lowerCaseQuery
  || match description task with
     | None => false
     | Some d =>
         if truthy d then includes (toLowerCase d) lowerCaseQuery else false
     end.

Definition filteredTasks (tasks : list Task) (searchQuery : jsstring)
  : list Task :=
  let lowerCaseQuery := trim (toLowerCase searchQuery) in
  if negb (truthy lowerCaseQuery) then tasks
  else List.filter (matchesQuery lowerCaseQuery) tasks.
End Filtering.

(** ** Completions, the environment and the table *)

Inductive JsError :=
| ConstraintError
| DataError
| StoreFailure (code : nat).

(** Completion of a statement or of an awaited promise. *)
Inductive Completion (A : Type) :=
| Normal (a : A)
| Throw (e : JsError).
Arguments Normal {A} a.
Arguments Throw {A} e.

(** What the environment does with a call to the store. *)
Inductive Outcome := Resolve | Reject (e : JsError).

(** The table [tasks: '++id, title, description, status']: its rows in
    primary key order and the next key of its generator. *)
Record Table := { rows : list Task; nextKey : Z }.

Definition emptyTable : Table := {| rows := []; nextKey := 1 |}.

Definition withId (k : Z) (t : Task) : Task :=
  {| id := Some k; title := title t; description := description t;
     status := status t |}.

Definition hasKey (k : Z) (t : Task) : bool :=
  match id t with
  | Some k' => (k' =? k)%Z
  | None => false
  end.

Fixpoint insertByKey (k : Z) (t : Task) (rs : list Task) : list Task :=
  match rs with
  | [] => [t]
  | r :: rs' =>
      match id r with
      | Some k' => if (k <? k')%Z then t :: rs else r :: insertByKey k t rs'
      | None => r :: insertByKey k t rs'
      end
  end.

(** [Table.add]: a record without key gets the next key of the generator and
    is the last row; a record with a key is refused when the key is taken. *)
Definition table_add (t : Task) (tb : Table) : Completion Z * Table :=
  match id t with
  | None =>
      let k := nextKey tb in
      (Normal k, {| rows := rows tb ++ [withId k t]; nextKey := (k + 1)%Z |})
  | Some k =>
      if existsb (hasKey k) (rows tb) then (Throw ConstraintError, tb)
      else (Normal k, {| rows := insertByKey k t (rows tb);
                         nextKey := Z.max (nextKey tb) (k + 1) |})
  end.

(** [Table.bulkAdd]: the records are added in order, the first failure
    aborts the whole call. *)
Fixpoint table_bulkAdd (ts : list Task) (tb : Table) : Completion Z * Table :=
  match ts with
  | [] => (Normal (nextKey tb - 1)%Z, tb)
  | t :: ts' =>
      match table_add t tb with
      | (Normal k, tb') =>
          match ts' with
          | [] => (Normal k, tb')
          | _ :: _ => table_bulkAdd ts' tb'
          end
      | (Throw e, _) => (Throw e, tb)
      end
  end.

(** The modifications object of [Table.update(key, {title, description})]. *)
Record Changes := { ch_title : jsstring; ch_description : jsstring }.

Definition applyChanges (c : Changes) (t : Task) : Task :=
  {| id := id t; title := ch_title c; description := Some (ch_description c);
     status := status t |}.

(** [Table.update]: the row with that key gets the modified fields; the
    promise resolves to the number of rows that were found, and rejects when
    the key is [undefined]. *)
Definition table_update (key : option Z) (c : Changes) (tb : Table)
  : Completion Z * Table :=
  match key with
  | None => (Throw DataError, tb)
  | Some k =>
      (Normal (Z.of_nat (length (List.filter (hasKey k) (rows tb)))),
       {| rows := map (fun r => if hasKey k r then applyChanges c r else r)
                    (rows tb);
          nextKey := nextKey tb |})
  end.

(** [Table.delete]: removing an absent key is not an error. *)
Definition table_delete (k : Z) (tb : Table) : Completion unit * Table :=
  (Normal tt,
   {| rows := List.filter (fun r => negb (hasKey k r)) (rows tb);
      nextKey := nextKey tb |}).

Definition table_toArray (tb : Table) : Completion (list Task) * Table :=
  (Normal (rows tb), tb).

(** The handler registered with [db.on('populate', ...)]. *)
Definition seedTasks : list Task :=
  [ {| id := None; title := js "Купить продукты";
       description := Some (js "Молоко, хлеб, яйца"); status := active |};
    {| id := None; title := js "Завершить отчет";
       description := Some (js "Подготовить презентацию для встречи");
       status := active |};
    {| id := None; title := js "Позвонить другу";
       description := Some (js "Узнать как дела"); status := completed |} ].

Definition populate (tb : Table) : Completion Z * Table :=
  table_bulkAdd seedTasks tb.

(** Opening the database, which Dexie does before the first operation: a
    database that does not exist yet is created and the populate event
    fires, once; an existing database is opened as it is. *)
Definition dexie_open (stored : option Table) : Completion Table :=
  match stored with
  | Some tb => Normal tb
  | None =>
      match populate emptyTable with
      | (Normal _, tb) => Normal tb
      | (Throw e, _) => Throw e
      end
  end.

(** The calls to the table that the page makes. *)
Inductive StoreCall :=
| CallToArray
| CallAdd (t : Task)
| CallUpdate (key : option Z) (c : Changes)
| CallDelete (key : Z).

(** The world of a page whose component state is [UI]: the database in the
    browser ([None] before it is first created), the outcomes the
    environment gives to the successive calls, the number of calls made, and
    the calls made so far with the component state at the time of each. *)
Record World (UI : Type) := {
  ui : UI;
  idb : option Table;
  env : nat -> Outcome;
  clock : nat;
  awaits : list (StoreCall * UI)
}.
Arguments ui {UI} _.
Arguments idb {UI} _.
Arguments env {UI} _.
Arguments clock {UI} _.
Arguments awaits {UI} _.

(** ** Async functions *)

Definition Async (UI A : Type) : Type := World UI -> Completion A * World UI.

Section AsyncOps.
Context {UI : Type}.

#[export] Instance async_ret : MRet (Async UI) :=
  fun A (a : A) w => (Normal a, w).

#[export] Instance async_bind : MBind (Async UI) :=
  fun A B (k : A -> Async UI B) (m : Async UI A) w =>
    match m w with
    | (Normal a, w') => k a w'
    | (Throw e, w') => (Throw e, w')
    end.

Definition getUI : Async UI UI := fun w => (Normal (ui w), w).

Definition modifyUI (f : UI -> UI) : Async UI unit :=
  fun w =>
    (Normal tt,
     {| ui := f (ui w); idb := idb w; env := env w; clock := clock w;
        awaits := awaits w |}).

(** [try { body } catch (error) { handler }] *)
Definition tryCatch {A} (body : Async UI A) (handler : JsError -> Async UI A)
  : Async UI A :=
  fun w =>
    match body w with
    | (Normal a, w') => (Normal a, w')
    | (Throw e, w') => handler e w'
    end.

(** [try { body } catch (error) { handler } finally { finalizer }] *)
Definition tryCatchFinally {A} (body : Async UI A)
    (handler : JsError -> Async UI A) (finalizer : Async UI unit)
  : Async UI A :=
  fun w =>
    let (c, w1) := tryCatch body handler w in
    match finalizer w1 with
    | (Normal _, w2) => (c, w2)
    | (Throw e, w2) => (Throw e, w2)
    end.

(** [await db.table('tasks').op(...)] *)
Definition awaitTable {A} (call : StoreCall)
    (op : Table -> Completion A * Table) : Async UI A :=
  fun w =>
    let called d :=
      {| ui := ui w; idb := d; env := env w; clock := S (clock w);
         awaits := awaits w ++ [(call, ui w)] |} in
    match env w (clock w) with
    | Reject e => (Throw e, called (idb w))
    | Resolve =>
        match dexie_open (idb w) with
        | Throw e => (Throw e, called (idb w))
        | Normal tb =>
            match op tb with
            | (Normal a, tb') => (Normal a, called (Some tb'))
            | (Throw e, _) => (Throw e, called (Some tb))
            end
        end
    end.

Definition db_toArray : Async UI (list Task) :=
  awaitTable CallToArray table_toArray.
Definition db_add (t : Task) : Async UI Z :=
  awaitTable (CallAdd t) (table_add t).
Definition db_update (key : option Z) (c : Changes) : Async UI Z :=
  awaitTable (CallUpdate key c) (table_update key c).
Definition db_delete (k : Z) : Async UI unit :=
  awaitTable (CallDelete k) (table_delete k).
End AsyncOps.

(** ** The page with notifications: [src/routes/+page.svelte] *)

Module Page.

Inductive NotificationType := success | error.

Record Notification := {
  n_id : Z;
  n_message : jsstring;
  n_type : NotificationType
}.

Inductive ConsoleLevel := LevelLog | LevelError.

Record ConsoleEntry := {
  c_level : ConsoleLevel;
  c_text : jsstring;
  c_error : option JsError
}.

(** The state of the component: its two writable stores that hold data
    ([tasks], [searchQuery]), the store of notifications, its variables, the
    timers it has started (delay and notification to remove) and what it has
    written to the console. *)
Record State := {
  tasks : list Task;
  newTaskTitle : jsstring;
  newTaskDescription : jsstring;
  editingTask : option Task;
  searchQuery : jsstring;
  isLoading : bool;
  notifications : list Notification;
  notificationIdCounter : Z;
  timers : list (Z * Z);
  console : list ConsoleEntry
}.

Definition set_tasks (v : list Task) (p : State) : State :=
  {| tasks := v; newTaskTitle := newTaskTitle p;
     newTaskDescription := newTaskDescription p;
     editingTask := editingTask p; searchQuery := searchQuery p;
     isLoading := isLoading p; notifications := notifications p;
     notificationIdCounter := notificationIdCounter p; timers := timers p;
     console := console p |}.

Definition set_newTaskTitle (v : jsstring) (p : State) : State :=
  {| tasks := tasks p; newTaskTitle := v;
     newTaskDescription := newTaskDescription p;
     editingTask := editingTask p; searchQuery := searchQuery p;
     isLoading := isLoading p; notifications := notifications p;
     notificationIdCounter := notificationIdCounter p; timers := timers p;
     console := console p |}.

Definition set_newTaskDescription (v : jsstring) (p : State) : State :=
  {| tasks := tasks p; newTaskTitle := newTaskTitle p;
     newTaskDescription := v;
     editingTask := editingTask p; searchQuery := searchQuery p;
     isLoading := isLoading p; notifications := notifications p;
     notificationIdCounter := notificationIdCounter p; timers := timers p;
     console := console p |}.

Definition set_editingTask (v : option Task) (p : State) : State :=
  {| tasks := tasks p; newTaskTitle := newTaskTitle p;
     newTaskDescription := newTaskDescription p;
     editingTask := v; searchQuery := searchQuery p;
     isLoading := isLoading p; notifications := notifications p;
     notificationIdCounter := notificationIdCounter p; timers := timers p;
     console := console p |}.

Definition set_searchQuery (v : jsstring) (p : State) : State :=
  {| tasks := tasks p; newTaskTitle := newTaskTitle p;
     newTaskDescription := newTaskDescription p;
     editingTask := editingTask p; searchQuery := v;
     isLoading := isLoading p; notifications := notifications p;
     notificationIdCounter := notificationIdCounter p; timers := timers p;
     console := console p |}.

Definition set_isLoading (v : bool) (p : State) : State :=
  {| tasks := tasks p; newTaskTitle := newTaskTitle p;
     newTaskDescription := newTaskDescription p;
     editingTask := editingTask p; searchQuery := searchQuery p;
     isLoading := v; notifications := notifications p;
     notificationIdCounter := notificationIdCounter p; timers := timers p;
     console := console p |}.

Definition set_notifications (v : list Notification) (p : State) : State :=
  {| tasks := tasks p; newTaskTitle := newTaskTitle p;
     newTaskDescription := newTaskDescription p;
     editingTask := editingTask p; searchQuery := searchQuery p;
     isLoading := isLoading p; notifications := v;
     notificationIdCounter := notificationIdCounter p; timers := timers p;
     console := console p |}.

Definition set_notificationIdCounter (v : Z) (p : State) : State :=
  {| tasks := tasks p; newTaskTitle := newTaskTitle p;
     newTaskDescription := newTaskDescription p;
     editingTask := editingTask p; searchQuery := searchQuery p;
     isLoading := isLoading p; notifications := notifications p;
     notificationIdCounter := v; timers := timers p;
     console := console p |}.

Definition set_timers (v : list (Z * Z)) (p : State) : State :=
  {| tasks := tasks p; newTaskTitle := newTaskTitle p;
     newTaskDescription := newTaskDescription p;
     editingTask := editingTask p; searchQuery := searchQuery p;
     isLoading := isLoading p; notifications := notifications p;
     notificationIdCounter := notificationIdCounter p; timers := v;
     console := console p |}.

Definition set_console (v : list ConsoleEntry) (p : State) : State :=
  {| tasks := tasks p; newTaskTitle := newTaskTitle p;
     newTaskDescription := newTaskDescription p;
     editingTask := editingTask p; searchQuery := searchQuery p;
     isLoading := isLoading p; notifications := notifications p;
     notificationIdCounter := notificationIdCounter p; timers := timers p;
     console := v |}.

(** The component as the script block leaves it. *)
Definition initialState : State :=
  {| tasks := []; newTaskTitle := []; newTaskDescription := [];
     editingTask := None; searchQuery := []; isLoading := true;
     notifications := []; notificationIdCounter := 0; timers := [];
     console := [] |}.

Definition consoleLog (text : jsstring) : Async State unit :=
  modifyUI (fun p =>
    set_console
      (console p ++ [{| c_level := LevelLog; c_text := text; c_error := None |}])
      p).

Definition consoleError (text : jsstring) (e : JsError) : Async State unit :=
  modifyUI (fun p =>
    set_console
      (console p
         ++ [{| c_level := LevelError; c_text := text; c_error := Some e |}])
      p).

(** The messages of the page. *)
Definition msgLoadFailedLog : jsstring := js "Ошибка при загрузке задач:".
Definition msgLoadFailed : jsstring :=
  js "Ошибка при загрузке задач. Пожалуйста, попробуйте позже.".
Definition msgEmptyTitle : jsstring :=
  js "Название задачи не может быть пустым!".
Definition msgUpdatedLog : jsstring := js "Задача обновлена успешно!".
Definition msgUpdated : jsstring := js "Задача успешно обновлена!".
Definition msgUpdateFailedLog : jsstring := js "Ошибка при обновлении задачи:".
Definition msgUpdateFailed : jsstring :=
  js "Ошибка при обновлении задачи. Пожалуйста, попробуйте позже.".
Definition msgAddedLog : jsstring := js "Задача добавлена успешно!".
Definition msgAdded : jsstring := js "Задача успешно добавлена!".
Definition msgAddFailedLog : jsstring := js "Ошибка при добавлении задачи:".
Definition msgAddFailed : jsstring :=
  js "Ошибка при добавлении задачи. Пожалуйста, попробуйте позже.".
Definition msgDeletedLog : jsstring := js "Задача удалена успешно!".
Definition msgDeleted : jsstring := js "Задача успешно удалена!".
Definition msgDeleteFailedLog : jsstring := js "Ошибка при удалении задачи:".
Definition msgDeleteFailed : jsstring :=
  js "Ошибка при удалении задачи. Пожалуйста, попробуйте позже.".

Definition addNotification (message : jsstring) (type : NotificationType)
  : Async State unit :=
  p ← getUI;
  let id := notificationIdCounter p in
  modifyUI (set_notificationIdCounter (id + 1)%Z);;
  modifyUI (fun p =>
    set_notifications
      (notifications p
         ++ [{| n_id := id; n_message := message; n_type := type |}]) p);;
  modifyUI (fun p => set_timers (timers p ++ [(2000%Z, id)]) p).

(** The callback given to [setTimeout] by [addNotification], run when the
    timer of notification [id] fires. *)
Definition dismissNotification (id : Z) : Async State unit :=
  modifyUI (fun p =>
    set_timers (List.filter (fun t => negb (snd t =? id)%Z) (timers p))
      (set_notifications
         (List.filter (fun n => negb (n_id n =? id)%Z) (notifications p)) p)).

Definition loadTasks : Async State unit :=
  modifyUI (set_isLoading true);;
  tryCatchFinally
    (allTasks ← db_toArray;
     modifyUI (set_tasks allTasks))
    (fun e =>
       consoleError msgLoadFailedLog e;;
       addNotification msgLoadFailed error)
    (modifyUI (set_isLoading false)).

Definition handleSubmit : Async State unit :=
  p ← getUI;
  if negb (truthy (trim (newTaskTitle p))) then
    addNotification msgEmptyTitle error
  else
    match editingTask p with
    | Some edited =>
        tryCatchFinally
          (db_update (id edited)
             {| ch_title := trim (newTaskTitle p);
                ch_description := trim (newTaskDescription p) |};;
           consoleLog msgUpdatedLog;;
           addNotification msgUpdated success)
          (fun e =>
             consoleError msgUpdateFailedLog e;;
             addNotification msgUpdateFailed error)
          (modifyUI (set_editingTask None))
    | None =>
        let task :=
          {| id := None; title := trim (newTaskTitle p);
             description := Some (trim (newTaskDescription p));
             status := active |} in
        tryCatch
          (db_add task;;
           consoleLog msgAddedLog;;
           addNotification msgAdded success)
          (fun e =>
             consoleError msgAddFailedLog e;;
             addNotification msgAddFailed error)
    end;;
    modifyUI (set_newTaskTitle []);;
    modifyUI (set_newTaskDescription []);;
    loadTasks.

Definition editTask (task : Task) : Async State unit :=
  modifyUI (set_editingTask (Some task));;
  modifyUI (set_newTaskTitle (title task));;
  modifyUI (set_newTaskDescription
              match description task with
              | Some d => if truthy d then d else []
              | None => []
              end).

Definition deleteTask (id : option Z) : Async State unit :=
  match id with
  | None => mret tt
  | Some k =>
      tryCatch
        (db_delete k;;
         consoleLog msgDeletedLog;;
         addNotification msgDeleted success;;
         loadTasks)
        (fun e =>
           consoleError msgDeleteFailedLog e;;
           addNotification msgDeleteFailed error)
  end.

Definition onMount : Async State unit := loadTasks.

End Page.

(** ** The page with a modal dialog: the second variant of the page

    The variant that reports through a modal window and asks for a
    confirmation before it deletes.  The arrow function that [deleteTask]
    hands to [showConfirm] is the closure [ConfirmDelete id]. *)

Module ModalPage.

Inductive ConfirmAction := ConfirmDelete (id : Z).

Inductive ConsoleLevel := LevelLog | LevelError.

Record ConsoleEntry := {
  c_level : ConsoleLevel;
  c_text : jsstring;
  c_error : option JsError
}.

Record State := {
  tasks : list Task;
  newTaskTitle : jsstring;
  newTaskDescription : jsstring;
  editingTask : option Task;
  searchQuery : jsstring;
  showModal : bool;
  modalMessage : jsstring;
  isConfirmModal : bool;
  confirmAction : option ConfirmAction;
  isLoading : bool;
  console : list ConsoleEntry
}.

Definition set_tasks (v : list Task) (p : State) : State :=
  {| tasks := v; newTaskTitle := newTaskTitle p;
     newTaskDescription := newTaskDescription p;
     editingTask := editingTask p; searchQuery := searchQuery p;
     showModal := showModal p; modalMessage := modalMessage p;
     isConfirmModal := isConfirmModal p; confirmAction := confirmAction p;
     isLoading := isLoading p; console := console p |}.

Definition set_modal (shown : bool) (message : jsstring) (confirm : bool)
    (action : option ConfirmAction) (p : State) : State :=
  {| tasks := tasks p; newTaskTitle := newTaskTitle p;
     newTaskDescription := newTaskDescription p;
     editingTask := editingTask p; searchQuery := searchQuery p;
     showModal := shown; modalMessage := message;
     isConfirmModal := confirm; confirmAction := action;
     isLoading := isLoading p; console := console p |}.

Definition set_isLoading (v : bool) (p : State) : State :=
  {| tasks := tasks p; newTaskTitle := newTaskTitle p;
     newTaskDescription := newTaskDescription p;
     editingTask := editingTask p; searchQuery := searchQuery p;
     showModal := showModal p; modalMessage := modalMessage p;
     isConfirmModal := isConfirmModal p; confirmAction := confirmAction p;
     isLoading := v; console := console p |}.

Definition set_console (v : list ConsoleEntry) (p : State) : State :=
  {| tasks := tasks p; newTaskTitle := newTaskTitle p;
     newTaskDescription := newTaskDescription p;
     editingTask := editingTask p; searchQuery := searchQuery p;
     showModal := showModal p; modalMessage := modalMessage p;
     isConfirmModal := isConfirmModal p; confirmAction := confirmAction p;
     isLoading := isLoading p; console := v |}.

Definition consoleLog (text : jsstring) : Async State unit :=
  modifyUI (fun p =>
    set_console
      (console p ++ [{| c_level := LevelLog; c_text := text; c_error := None |}])
      p).

Definition consoleError (text : jsstring) (e : JsError) : Async State unit :=
  modifyUI (fun p =>
    set_console
      (console p
         ++ [{| c_level := LevelError; c_text := text; c_error := Some e |}])
      p).

Definition msgConfirmDelete : jsstring :=
  js "Вы уверены, что хотите удалить эту задачу?".

(** [modalMessage = message; isConfirmModal = false; showModal = true] *)
Definition showAlert (message : jsstring) : Async State unit :=
  modifyUI (fun p => set_modal true message false (confirmAction p) p).

Definition showConfirm (message : jsstring) (action : ConfirmAction)
  : Async State unit :=
  modifyUI (set_modal true message true (Some action)).

Definition closeModal : Async State unit :=
  modifyUI (set_modal false [] false None).

Definition loadTasks : Async State unit :=
  modifyUI (set_isLoading true);;
  tryCatchFinally
    (allTasks ← db_toArray;
     modifyUI (set_tasks allTasks))
    (fun e =>
       consoleError Page.msgLoadFailedLog e;;
       showAlert Page.msgLoadFailed)
    (modifyUI (set_isLoading false)).

(** The body of the arrow function of [deleteTask], run on confirmation. *)
Definition runConfirmAction (action : ConfirmAction) : Async State unit :=
  match action with
  | ConfirmDelete k =>
      tryCatch
        (db_delete k;;
         consoleLog Page.msgDeletedLog;;
         showAlert Page.msgDeleted;;
         loadTasks)
        (fun e =>
           consoleError Page.msgDeleteFailedLog e;;
           showAlert Page.msgDeleteFailed)
  end.

Definition deleteTask (id : option Z) : Async State unit :=
  match id with
  | None => mret tt
  | Some k => showConfirm msgConfirmDelete (ConfirmDelete k)
  end.

End ModalPage.

(** ** The page with the modal dialog: its form and its confirmation *)

(** An async function that is called without [await] runs up to its first
    [await]; the caller then runs on to its end, and the function resumes
    when the awaited call settles.  [awaitTableDetached] is that first
    [await] when it is a call to the table: the call is made in the state of
    the component at that time, [meanwhile] is what the rest of the caller
    assigns, and then the call settles. *)
Definition awaitTableDetached {UI A} (call : StoreCall)
    (op : Table -> Completion A * Table) (meanwhile : UI -> UI)
  : Async UI A :=
  fun w =>
    let (c, w') := awaitTable call op w in
    (c, {| ui := meanwhile (ui w'); idb := idb w'; env := env w';
           clock := clock w'; awaits := awaits w' |}).

Module ModalForm.

Definition set_newTaskTitle (v : jsstring) (p : ModalPage.State)
  : ModalPage.State :=
  {| ModalPage.tasks := ModalPage.tasks p; ModalPage.newTaskTitle := v;
     ModalPage.newTaskDescription := ModalPage.newTaskDescription p;
     ModalPage.editingTask := ModalPage.editingTask p;
     ModalPage.searchQuery := ModalPage.searchQuery p;
     ModalPage.showModal := ModalPage.showModal p;
     ModalPage.modalMessage := ModalPage.modalMessage p;
     ModalPage.isConfirmModal := ModalPage.isConfirmModal p;
     ModalPage.confirmAction := ModalPage.confirmAction p;
     ModalPage.isLoading := ModalPage.isLoading p;
     ModalPage.console := ModalPage.console p |}.

Definition set_newTaskDescription (v : jsstring) (p : ModalPage.State)
  : ModalPage.State :=
  {| ModalPage.tasks := ModalPage.tasks p;
     ModalPage.newTaskTitle := ModalPage.newTaskTitle p;
     ModalPage.newTaskDescription := v;
     ModalPage.editingTask := ModalPage.editingTask p;
     ModalPage.searchQuery := ModalPage.searchQuery p;
     ModalPage.showModal := ModalPage.showModal p;
     ModalPage.modalMessage := ModalPage.modalMessage p;
     ModalPage.isConfirmModal := ModalPage.isConfirmModal p;
     ModalPage.confirmAction := ModalPage.confirmAction p;
     ModalPage.isLoading := ModalPage.isLoading p;
     ModalPage.console := ModalPage.console p |}.

Definition set_editingTask (v : option Task) (p : ModalPage.State)
  : ModalPage.State :=
  {| ModalPage.tasks := ModalPage.tasks p;
     ModalPage.newTaskTitle := ModalPage.newTaskTitle p;
     ModalPage.newTaskDescription := ModalPage.newTaskDescription p;
     ModalPage.editingTask := v;
     ModalPage.searchQuery := ModalPage.searchQuery p;
     ModalPage.showModal := ModalPage.showModal p;
     ModalPage.modalMessage := ModalPage.modalMessage p;
     ModalPage.isConfirmModal := ModalPage.isConfirmModal p;
     ModalPage.confirmAction := ModalPage.confirmAction p;
     ModalPage.isLoading := ModalPage.isLoading p;
     ModalPage.console := ModalPage.console p |}.

(** The component as the script block leaves it. *)
Definition initialState : ModalPage.State :=
  {| ModalPage.tasks := []; ModalPage.newTaskTitle := [];
     ModalPage.newTaskDescription := []; ModalPage.editingTask := None;
     ModalPage.searchQuery := []; ModalPage.showModal := false;
     ModalPage.modalMessage := []; ModalPage.isConfirmModal := false;
     ModalPage.confirmAction := None; ModalPage.isLoading := true;
     ModalPage.console := [] |}.

Definition handleSubmit : Async ModalPage.State unit :=
  p ← getUI;
  if negb (truthy (trim (ModalPage.newTaskTitle p))) then
    ModalPage.showAlert Page.msgEmptyTitle
  else
    match ModalPage.editingTask p with
    | Some edited =>
        tryCatchFinally
          (db_update (id edited)
             {| ch_title := trim (ModalPage.newTaskTitle p);
                ch_description := trim (ModalPage.newTaskDescription p) |};;
           ModalPage.consoleLog Page.msgUpdatedLog;;
           ModalPage.showAlert Page.msgUpdated)
          (fun e =>
             ModalPage.consoleError Page.msgUpdateFailedLog e;;
             ModalPage.showAlert Page.msgUpdateFailed)
          (modifyUI (set_editingTask None))
    | None =>
        let task :=
          {| id := None; title := trim (ModalPage.newTaskTitle p);
             description := Some (trim (ModalPage.newTaskDescription p));
             status := active |} in
        tryCatch
          (db_add task;;
           ModalPage.consoleLog Page.msgAddedLog;;
           ModalPage.showAlert Page.msgAdded)
          (fun e =>
             ModalPage.consoleError Page.msgAddFailedLog e;;
             ModalPage.showAlert Page.msgAddFailed)
    end;;
    modifyUI (set_newTaskTitle []);;
    modifyUI (set_newTaskDescription []);;
    ModalPage.loadTasks.

Definition editTask (task : Task) : Async ModalPage.State unit :=
  modifyUI (set_editingTask (Some task));;
  modifyUI (set_newTaskTitle (title task));;
  modifyUI (set_newTaskDescription
              match description task with
              | Some d => if truthy d then d else []
              | None => []
              end).

(** The arrow function of [deleteTask], called by [handleConfirm] without
    [await]: [meanwhile] is the rest of [handleConfirm]. *)
Definition callConfirmAction (action : ModalPage.ConfirmAction)
    (meanwhile : ModalPage.State -> ModalPage.State)
  : Async ModalPage.State unit :=
  match action with
  | ModalPage.ConfirmDelete k =>
      tryCatch
        (awaitTableDetached (CallDelete k) (table_delete k) meanwhile;;
         ModalPage.consoleLog Page.msgDeletedLog;;
         ModalPage.showAlert Page.msgDeleted;;
         ModalPage.loadTasks)
        (fun e =>
           ModalPage.consoleError Page.msgDeleteFailedLog e;;
           ModalPage.showAlert Page.msgDeleteFailed)
  end.

(** [if (confirmAction) confirmAction(); closeModal();] *)
Definition handleConfirm : Async ModalPage.State unit :=
  p ← getUI;
  match ModalPage.confirmAction p with
  | Some action =>
      callConfirmAction action (ModalPage.set_modal false [] false None)
  | None => ModalPage.closeModal
  end.

Definition onMount : Async ModalPage.State unit := ModalPage.loadTasks.

End ModalForm.

(** ** The page with [alert] and [confirm]

    The second script of [src/routes/+page.svelte]: no search, no loading
    flag; it reports with [window.alert] and asks with [window.confirm],
    whose answer is an argument of [deleteTask] here. *)

Module PlainPage.

Record State := {
  tasks : list Task;
  newTaskTitle : jsstring;
  newTaskDescription : jsstring;
  editingTask : option Task;
  alerts : list jsstring;
  confirms : list jsstring;
  console : list Page.ConsoleEntry
}.

Definition set_tasks (v : list Task) (p : State) : State :=
  {| tasks := v; newTaskTitle := newTaskTitle p;
     newTaskDescription := newTaskDescription p;
     editingTask := editingTask p; alerts := alerts p;
     confirms := confirms p; console := console p |}.

Definition set_newTaskTitle (v : jsstring) (p : State) : State :=
  {| tasks := tasks p; newTaskTitle := v;
     newTaskDescription := newTaskDescription p;
     editingTask := editingTask p; alerts := alerts p;
     confirms := confirms p; console := console p |}.

Definition set_newTaskDescription (v : jsstring) (p : State) : State :=
  {| tasks := tasks p; newTaskTitle := newTaskTitle p;
     newTaskDescription := v;
     editingTask := editingTask p; alerts := alerts p;
     confirms := confirms p; console := console p |}.

Definition set_editingTask (v : option Task) (p : State) : State :=
  {| tasks := tasks p; newTaskTitle := newTaskTitle p;
     newTaskDescription := newTaskDescription p;
     editingTask := v; alerts := alerts p;
     confirms := confirms p; console := console p |}.

Definition set_alerts (v : list jsstring) (p : State) : State :=
  {| tasks := tasks p; newTaskTitle := newTaskTitle p;
     newTaskDescription := newTaskDescription p;
     editingTask := editingTask p; alerts := v;
     confirms := confirms p; console := console p |}.

Definition set_confirms (v : list jsstring) (p : State) : State :=
  {| tasks := tasks p; newTaskTitle := newTaskTitle p;
     newTaskDescription := newTaskDescription p;
     editingTask := editingTask p; alerts := alerts p;
     confirms := v; console := console p |}.

Definition set_console (v : list Page.ConsoleEntry) (p : State) : State :=
  {| tasks := tasks p; newTaskTitle := newTaskTitle p;
     newTaskDescription := newTaskDescription p;
     editingTask := editingTask p; alerts := alerts p;
     confirms := confirms p; console := v |}.

Definition initialState : State :=
  {| tasks := []; newTaskTitle := []; newTaskDescription := [];
     editingTask := None; alerts := []; confirms := []; console := [] |}.

Definition consoleLog (text : jsstring) : Async State unit :=
  modifyUI (fun p =>
    set_console
      (console p
         ++ [{| Page.c_level := Page.LevelLog; Page.c_text := text;
                Page.c_error := None |}]) p).

Definition consoleError (text : jsstring) (e : JsError) : Async State unit :=
  modifyUI (fun p =>
    set_console
      (console p
         ++ [{| Page.c_level := Page.LevelError; Page.c_text := text;
                Page.c_error := Some e |}]) p).

(** [window.alert(message)] *)
Definition alert (message : jsstring) : Async State unit :=
  modifyUI (fun p => set_alerts (alerts p ++ [message]) p).

(** [window.confirm(message)], which the user answers with [answer]. *)
Definition confirm (message : jsstring) (answer : bool) : Async State bool :=
  modifyUI (fun p => set_confirms (confirms p ++ [message]) p);;
  mret answer.

Definition loadTasks : Async State unit :=
  tryCatch
    (allTasks ← db_toArray;
     modifyUI (set_tasks allTasks))
    (fun e => consoleError Page.msgLoadFailedLog e).

Definition handleSubmit : Async State unit :=
  p ← getUI;
  if negb (truthy (trim (newTaskTitle p))) then
    alert Page.msgEmptyTitle
  else
    match editingTask p with
    | Some edited =>
        tryCatchFinally
          (db_update (id edited)
             {| ch_title := trim (newTaskTitle p);
                ch_description := trim (newTaskDescription p) |};;
           consoleLog Page.msgUpdatedLog)
          (fun e => consoleError Page.msgUpdateFailedLog e)
          (modifyUI (set_editingTask None))
    | None =>
        let task :=
          {| id := None; title := trim (newTaskTitle p);
             description := Some (trim (newTaskDescription p));
             status := active |} in
        tryCatch
          (db_add task;;
           consoleLog Page.msgAddedLog)
          (fun e => consoleError Page.msgAddFailedLog e)
    end;;
    modifyUI (set_newTaskTitle []);;
    modifyUI (set_newTaskDescription []);;
    loadTasks.

Definition editTask (task : Task) : Async State unit :=
  modifyUI (set_editingTask (Some task));;
  modifyUI (set_newTaskTitle (title task));;
  modifyUI (set_newTaskDescription
              match description task with
              | Some d => if truthy d then d else []
              | None => []
              end).

Definition deleteTask (answer : bool) (id : option Z) : Async State unit :=
  match id with
  | None => mret tt
  | Some k =>
      confirm ModalPage.msgConfirmDelete answer ≫= fun confirmed : bool =>
      if confirmed then
        tryCatch
          (db_delete k;;
           consoleLog Page.msgDeletedLog;;
           loadTasks)
          (fun e => consoleError Page.msgDeleteFailedLog e)
      else mret tt
  end.

Definition onMount : Async State unit := loadTasks.

End PlainPage.

(** ** What the page with notifications renders *)

(** One card of the list: the key of the keyed [each] block, the title, the
    paragraph of the description when there is one to show, and the status
    as it is written. *)
Record Card := {
  card_key : option Z;
  card_title : jsstring;
  card_description : option jsstring;
  card_status : jsstring
}.

Inductive Screen :=
| Skeleton (placeholders : nat)
| EmptyMessage (text : jsstring)
| Grid (cards : list Card).

Definition msgNotFound : jsstring := js "Задач по вашему запросу не найдено.".
Definition msgNoTasks : jsstring := js "Задач пока нет. Добавьте первую!".
Definition labelActive : jsstring := js "Активная".
Definition labelCompleted : jsstring := js "Завершена".
Definition labelSave : jsstring := js "Сохранить изменения".
Definition labelAdd : jsstring := js "Добавить задачу".

Definition renderCard (task : Task) : Card :=
  {| card_key := id task;
     card_title := title task;
     card_description :=
       match description task with
       | Some d => if truthy d then Some d else None
       | None => None
       end;
     card_status :=
       match status task with
       | active => labelActive
       | completed => labelCompleted
       end |}.

(** The block [{#if isLoading} ... {:else if $filteredTasks.length === 0}
    ... {:else} ... {/if}] of the markup. *)
Definition renderList {CM : CaseMapping} (p : Page.State) : Screen :=
  if Page.isLoading p then Skeleton 4
  else
    match filteredTasks (Page.tasks p) (Page.searchQuery p) with
    | [] => EmptyMessage (if truthy (Page.searchQuery p) then msgNotFound
                          else msgNoTasks)
    | shown => Grid (map renderCard shown)
    end.

(** The text of the button of the form. *)
Definition submitLabel (p : Page.State) : jsstring :=
  match Page.editingTask p with
  | Some _ => labelSave
  | None => labelAdd
  end.

(** ** The words of the specification *)

(** [q] is a substring of [s]. *)
Definition Substring (q s : jsstring) : Prop :=
  exists pre post, s = pre ++ q ++ post.

(** The task is kept for the lower-cased query [lq]: [lq] is a substring of
    its lower-cased title, or its description is present and [lq] is a
    substring of the lower-cased description. *)
Definition Kept {CM : CaseMapping} (lq : jsstring) (T : Task) : Prop :=
  Substring lq (toLowerCase (title T))
  \/ exists d, description T = Some d /\ Substring lq (toLowerCase d).

(** [view] is made of the elements of [snapshot] that satisfy [P], each as
    often as it occurs and in the order of [snapshot]. *)
Inductive KeptInOrder {A} (P : A -> Prop) : list A -> list A -> Prop :=
| kio_nil : KeptInOrder P [] []
| kio_keep x snapshot view :
    P x -> KeptInOrder P snapshot view ->
    KeptInOrder P (x :: snapshot) (x :: view)
| kio_drop x snapshot view :
    ~ P x -> KeptInOrder P snapshot view ->
    KeptInOrder P (x :: snapshot) view.

(** A title that is empty or made of white space only. *)
Definition Blank (s : jsstring) : Prop :=
  Forall (fun c => isWhiteSpace c = true) s.

(** The table that a call to the store works on: the stored one, or the
    freshly created and seeded one when there is none yet. *)
Definition storeTable (stored : option Table) : Table :=
  match dexie_open stored with
  | Normal tb => tb
  | Throw _ => emptyTable
  end.

(** What a listing of the store returns. *)
Definition storeRows (stored : option Table) : list Task :=
  rows (storeTable stored).

(** The keys of the rows are present, increasing, and below the generator:
    what Dexie keeps of a table with an auto-incremented key. *)
Fixpoint keysAbove (low bound : Z) (rs : list Task) : Prop :=
  match rs with
  | [] => True
  | r :: rs' =>
      match id r with
      | Some k => (low < k < bound)%Z /\ keysAbove k bound rs'
      | None => False
      end
  end.

Definition table_wf (tb : Table) : Prop :=
  (0 < nextKey tb)%Z /\ keysAbove 0 (nextKey tb) (rows tb).

(** Between [w] and [w'] the store was called, and the last call is the
    listing of a reload. *)
Definition Reloaded {UI} (w w' : World UI) : Prop :=
  exists calls u, awaits w' = awaits w ++ calls ++ [(CallToArray, u)].

(** Between [w] and [w'] an error notification with [message] was added. *)
Definition ErrorNotified (message : jsstring) (w w' : World Page.State)
  : Prop :=
  exists k before after,
    Page.notifications (ui w') =
    Page.notifications (ui w)
      ++ before
      ++ [{| Page.n_id := k; Page.n_message := message;
             Page.n_type := Page.error |}]
      ++ after.

(** The record that [handleSubmit] inserts and the modifications that it
    makes to the edited task, from the fields of the form. *)
Definition typedTask (u : Page.State) : Task :=
  {| id := None; title := trim (Page.newTaskTitle u);
     description := Some (trim (Page.newTaskDescription u));
     status := active |}.

Definition typedChanges (u : Page.State) : Changes :=
  {| ch_title := trim (Page.newTaskTitle u);
     ch_description := trim (Page.newTaskDescription u) |}.

(** ** Concrete worlds *)

(** A page in state [u] over the stored database [stored], before any call,
    in an environment that answers the calls with [outcomes]. *)
Definition browser {UI} (u : UI) (stored : option Table)
    (outcomes : nat -> Outcome) : World UI :=
  {| ui := u; idb := stored; env := outcomes; clock := 0; awaits := [] |}.

Definition allResolve : nat -> Outcome := fun _ => Resolve.

Definition allReject : nat -> Outcome := fun _ => Reject (StoreFailure 0).

(** The table right after its creation. *)
Definition seededTable : Table := storeTable None.

(** The form with a title and a description typed in, a task being edited or
    not, and [snapshot] loaded. *)
Definition formState (snapshot : list Task) (typedTitle typedDescription : jsstring)
    (edited : option Task) : Page.State :=
  Page.set_isLoading false
    (Page.set_tasks snapshot
       (Page.set_editingTask edited
          (Page.set_newTaskDescription typedDescription
             (Page.set_newTaskTitle typedTitle Page.initialState)))).

(** The snapshot of [w'] is the one of [w], or it is the full listing of
    the store of [w']: it was not patched. *)
Definition Wholesale (w w' : World Page.State) : Prop :=
  Page.tasks (ui w') = Page.tasks (ui w)
  \/ Page.tasks (ui w') = storeRows (idb w').

(** The seeded page in which every call to the store is rejected. *)
Definition wStoreDown : World Page.State :=
  browser (formState (rows seededTable) [] [] None) (Some seededTable)
    allReject.

(** ** Invariants of the page *)

(** The identifiers of the notifications shown are distinct, and they and
    those of the running timers are below the counter. *)
Definition NotificationsFresh (u : Page.State) : Prop :=
  NoDup (map Page.n_id (Page.notifications u))
  /\ Forall (fun n => (Page.n_id n < Page.notificationIdCounter u)%Z)
       (Page.notifications u)
  /\ Forall (fun t => (snd t < Page.notificationIdCounter u)%Z)
       (Page.timers u).

(** Every notification shown has its timer of two seconds running. *)
Definition TimersCover (u : Page.State) : Prop :=
  forall n, In n (Page.notifications u) ->
            In (2000%Z, Page.n_id n) (Page.timers u).

(** A text as the form stores it: trimmed. *)
Definition Trimmed (s : jsstring) : Prop := trim s = s.

(** A row as the form writes it: its title is trimmed and not empty, its
    description is present and trimmed. *)
Definition Tidy (r : Task) : Prop :=
  title r <> [] /\ Trimmed (title r)
  /\ exists d, description r = Some d /\ Trimmed d.

(** The keys of the snapshot are distinct and the table is well formed. *)
Definition KeysDistinct (w : World Page.State) : Prop :=
  table_wf (storeTable (idb w)) /\ NoDup (map id (Page.tasks (ui w))).

(** What happens to the page: its handlers, the timer of a notification,
    and the user typing in the bound inputs. *)
Inductive PageEvent :=
| EvMount
| EvSubmit
| EvEdit (task : Task)
| EvDelete (key : option Z)
| EvTimer (notification : Z)
| EvTypeTitle (value : jsstring)
| EvTypeDescription (value : jsstring)
| EvTypeSearch (value : jsstring).

Definition runEvent (ev : PageEvent) : Async Page.State unit :=
  match ev with
  | EvMount => Page.onMount
  | EvSubmit => Page.handleSubmit
  | EvEdit task => Page.editTask task
  | EvDelete key => Page.deleteTask key
  | EvTimer i => Page.dismissNotification i
  | EvTypeTitle value => modifyUI (Page.set_newTaskTitle value)
  | EvTypeDescription value => modifyUI (Page.set_newTaskDescription value)
  | EvTypeSearch value => modifyUI (Page.set_searchQuery value)
  end.

Fixpoint runEvents (evs : list PageEvent) (w : World Page.State)
  : World Page.State :=
  match evs with
  | [] => w
  | ev :: evs' => runEvents evs' (snd (runEvent ev w))
  end.

(** The first visit: the script block has run and no database exists. *)
Definition firstVisit (outcomes : nat -> Outcome) : World Page.State :=
  browser Page.initialState None outcomes.

(** ** Strings *)

Example js_demo : js "отчет A" = [1086; 1090; 1095; 1077; 1090; 32; 65].
Proof. reflexivity. Qed.

Example lower_demo :
  @toLowerCase basicCaseMapping (js "Завершить Отчет") = js "завершить отчет".
Proof. reflexivity. Qed.

Example trim_demo : trim (js "  a b  ") = js "a b".
Proof. reflexivity. Qed.

Lemma startsWith_spec (s q : jsstring) :
  startsWith s q = true <-> exists post, s = q ++ post.
Proof.
  revert s. induction q as [|c q IH]; intros s.
  - split; [intros _; now exists s | now destruct s].
  - destruct s as [|d s]; simpl.
    + split; [discriminate | intros [post H]; discriminate H].
    + rewrite andb_true_iff, N.eqb_eq, IH. split.
      * intros [-> [post ->]]. now exists post.
      * intros [post H]. injection H as -> ->. split; [reflexivity | now exists post].
Qed.

Lemma includes_spec (s q : jsstring) :
  includes s q = true <-> Substring q s.
Proof.
  unfold Substring. induction s as [|d s IH]; cbn [includes].
  - rewrite orb_false_r, startsWith_spec. split.
    + intros [post H]. now exists [], post.
    + intros [pre [post H]]. symmetry in H.
      apply app_eq_nil in H as [-> H]. now exists post.
  - rewrite orb_true_iff, startsWith_spec, IH. split.
    + intros [[post H] | [pre [post H]]].
      * now exists [], post.
      * exists (d :: pre), post. simpl. now rewrite H.
    + intros [[|c pre] [post H]].
      * left. now exists post.
      * right. injection H as -> H. now exists pre, post.
Qed.

Lemma includes_nonempty_in_empty (q : jsstring) :
  q <> [] -> ~ Substring q [].
Proof.
  intros Hq [pre [post H]]. symmetry in H.
  apply app_eq_nil in H as [_ H]. apply app_eq_nil in H as [H _]. now apply Hq.
Qed.

Lemma trimStart_empty (s : jsstring) : trimStart s = [] <-> Blank s.
Proof.
  unfold Blank. induction s as [|c s IH]; simpl.
  - split; [constructor | reflexivity].
  - destruct (isWhiteSpace c) eqn:Hc.
    + rewrite IH. split; [now constructor | now inversion 1].
    + split; [discriminate | inversion 1; congruence].
Qed.

Lemma trimStart_head (s : jsstring) :
  match trimStart s with
  | [] => True
  | c :: _ => isWhiteSpace c = false
  end.
Proof.
  induction s as [|c s IH]; simpl; [exact I |].
  destruct (isWhiteSpace c) eqn:Hc; [exact IH | exact Hc].
Qed.

Lemma trim_empty (s : jsstring) : trim s = [] <-> Blank s.
Proof.
  unfold trim, trimEnd. split.
  - intros H. apply trimStart_empty.
    assert (Hr : trimStart (rev (trimStart s)) = []).
    { rewrite <- (rev_involutive (trimStart _)). now rewrite H. }
    apply trimStart_empty in Hr. unfold Blank in Hr.
    pose proof (trimStart_head s) as Hh.
    destruct (trimStart s) as [|c r]; [reflexivity | exfalso].
    rewrite Forall_forall in Hr.
    assert (isWhiteSpace c = true); [|congruence].
    apply Hr. apply list_elem_of_In. rewrite <- in_rev. now left.
  - intros H. apply trimStart_empty in H. now rewrite H.
Qed.

Lemma truthy_false (s : jsstring) : truthy s = false <-> s = [].
Proof. destruct s; simpl; split; congruence. Qed.

(** ** The filtered view *)

Section FilteringFacts.
Context {CM : CaseMapping}.

Lemma matchesQuery_spec (lq : jsstring) (T : Task) :
  lq <> [] -> (matchesQuery lq T = true <-> Kept lq T).
Proof.
  intros Hq. unfold matchesQuery, Kept.
  rewrite orb_true_iff, includes_spec.
  split; (intros [H | H]; [now left | right]).
  - destruct (description T) as [d|]; [|discriminate].
    destruct (truthy d); [|discriminate].
    exists d. split; [reflexivity | now apply includes_spec].
  - destruct H as [d [-> H]].
    destruct d as [|c d]; simpl.
    + rewrite toLowerCase_empty in H.
      now destruct (includes_nonempty_in_empty lq Hq).
    + now apply includes_spec.
Qed.

Lemma filter_KeptInOrder (lq : jsstring) (snapshot : list Task) :
  lq <> [] ->
  KeptInOrder (Kept lq) snapshot (List.filter (matchesQuery lq) snapshot).
Proof.
  intros Hq. induction snapshot as [|T snapshot IH]; simpl.
  - constructor.
  - destruct (matchesQuery lq T) eqn:Hm.
    + apply kio_keep; [now apply matchesQuery_spec | exact IH].
    + apply kio_drop; [|exact IH].
      intros HK. apply matchesQuery_spec in HK; congruence.
Qed.

End FilteringFacts.

Lemma KeptInOrder_sublist {A} (P : A -> Prop) (snapshot view : list A) :
  KeptInOrder P snapshot view -> sublist view snapshot.
Proof.
  induction 1; [constructor | now apply sublist_skip | now apply sublist_cons].
Qed.

Lemma KeptInOrder_In {A} (P : A -> Prop) (snapshot view : list A) :
  KeptInOrder P snapshot view ->
  forall x, In x view <-> In x snapshot /\ P x.
Proof.
  induction 1 as [|x s v HP _ IH|x s v HP _ IH]; intros y; simpl.
  - tauto.
  - rewrite IH. split.
    + intros [<- | [? ?]]; tauto.
    + intros [[<- | ?] ?]; tauto.
  - rewrite IH. split.
    + tauto.
    + intros [[<- | ?] ?]; tauto.
Qed.

(** ** The store *)

Lemma dexie_open_total (stored : option Table) :
  dexie_open stored = Normal (storeTable stored).
Proof. destruct stored; reflexivity. Qed.

Lemma storeTable_Some (tb : Table) : storeTable (Some tb) = tb.
Proof. reflexivity. Qed.

Arguments storeTable : simpl never.
Arguments dexie_open : simpl never.

Lemma awaitTable_eq {UI A} (call : StoreCall)
    (op : Table -> Completion A * Table) (w : World UI) :
  awaitTable call op w =
  let called d :=
    {| ui := ui w; idb := d; env := env w; clock := S (clock w);
       awaits := awaits w ++ [(call, ui w)] |} in
  match env w (clock w) with
  | Reject e => (Throw e, called (idb w))
  | Resolve =>
      match op (storeTable (idb w)) with
      | (Normal a, tb') => (Normal a, called (Some tb'))
      | (Throw e, _) => (Throw e, called (Some (storeTable (idb w))))
      end
  end.
Proof. unfold awaitTable. now rewrite dexie_open_total. Qed.

(** ** Rows and keys *)

Lemma hasKey_true (k : Z) (r : Task) : hasKey k r = true <-> id r = Some k.
Proof.
  unfold hasKey. destruct (id r) as [k'|].
  - rewrite Z.eqb_eq. split; congruence.
  - split; discriminate.
Qed.

Lemma hasKey_false (k : Z) (r : Task) : hasKey k r = false <-> id r <> Some k.
Proof.
  rewrite <- hasKey_true. destruct (hasKey k r); split; congruence.
Qed.

Lemma delete_absent (k : Z) (rs : list Task) :
  (forall r, In r rs -> id r <> Some k) ->
  List.filter (fun r => negb (hasKey k r)) rs = rs.
Proof.
  induction rs as [|r rs IH]; intros H; simpl; [reflexivity |].
  assert (Hr : hasKey k r = false) by (apply hasKey_false, H; now left).
  rewrite Hr. simpl. f_equal. apply IH. intros r' Hin. apply H. now right.
Qed.

Lemma update_keeps_id (k : Z) (c : Changes) (rs : list Task) :
  map id (map (fun r => if hasKey k r then applyChanges c r else r) rs)
  = map id rs.
Proof.
  rewrite map_map. apply map_ext. intros r. now destruct (hasKey k r).
Qed.

Lemma update_keeps_status (k : Z) (c : Changes) (rs : list Task) :
  map status (map (fun r => if hasKey k r then applyChanges c r else r) rs)
  = map status rs.
Proof.
  rewrite map_map. apply map_ext. intros r. now destruct (hasKey k r).
Qed.

Lemma update_lookup (k : Z) (c : Changes) (rs : list Task) (i : nat) (r : Task) :
  rs !! i = Some r ->
  map (fun r => if hasKey k r then applyChanges c r else r) rs !! i
  = Some (if hasKey k r then applyChanges c r else r).
Proof.
  intros H.
  change (map ?f rs) with (f <$> rs). rewrite list_lookup_fmap, H. reflexivity.
Qed.

Lemma keysAbove_weaken (low low' bound bound' : Z) (rs : list Task) :
  (low' <= low)%Z -> (bound <= bound')%Z ->
  keysAbove low bound rs -> keysAbove low' bound' rs.
Proof.
  revert low low'. induction rs as [|r rs IH]; intros low low' Hl Hb; simpl.
  - trivial.
  - destruct (id r) as [k|]; [|trivial].
    intros [Hk Hrs]. split; [lia |].
    apply (IH k k); [lia | exact Hb | exact Hrs].
Qed.

Lemma keysAbove_In (low bound : Z) (rs : list Task) (r : Task) :
  keysAbove low bound rs -> In r rs ->
  exists k, id r = Some k /\ (low < k < bound)%Z.
Proof.
  revert low. induction rs as [|r0 rs IH]; intros low Hk Hin; [destruct Hin |].
  simpl in Hk. destruct (id r0) as [k0|] eqn:Hid; [|destruct Hk].
  destruct Hk as [Hk0 Hrs]. destruct Hin as [<- | Hin].
  - now exists k0.
  - destruct (IH k0 Hrs Hin) as [k [Hr Hb]]. exists k. split; [exact Hr | lia].
Qed.

Lemma keysAbove_add (low bound : Z) (rs : list Task) (t : Task) :
  (low < bound)%Z ->
  keysAbove low bound rs ->
  keysAbove low (bound + 1) (rs ++ [withId bound t]).
Proof.
  revert low. induction rs as [|r rs IH]; intros low Hl; simpl.
  - intros _. split; [lia | exact I].
  - destruct (id r) as [k|]; [|trivial].
    intros [Hk Hrs]. split; [lia |]. apply IH; [lia | exact Hrs].
Qed.

Lemma keysAbove_update (low bound k : Z) (c : Changes) (rs : list Task) :
  keysAbove low bound rs ->
  keysAbove low bound
    (map (fun r => if hasKey k r then applyChanges c r else r) rs).
Proof.
  revert low. induction rs as [|r rs IH]; intros low; simpl; [trivial |].
  assert (Hid : id (if hasKey k r then applyChanges c r else r) = id r)
    by now destruct (hasKey k r).
  rewrite Hid. destruct (id r) as [k0|]; [|trivial].
  intros [Hk Hrs]. split; [exact Hk | now apply IH].
Qed.

Lemma keysAbove_delete (low bound k : Z) (rs : list Task) :
  keysAbove low bound rs ->
  keysAbove low bound (List.filter (fun r => negb (hasKey k r)) rs).
Proof.
  revert low. induction rs as [|r rs IH]; intros low; simpl; [trivial |].
  destruct (id r) as [k0|] eqn:Hid; [|intros []].
  intros [Hk Hrs]. destruct (negb (hasKey k r)); simpl.
  - rewrite Hid. split; [exact Hk | now apply IH].
  - apply IH. apply (keysAbove_weaken k0 low bound bound); [lia | lia | exact Hrs].
Qed.

(** The table is well formed when it is created, and every operation that
    the page performs keeps it so. *)
Lemma seededTable_wf : table_wf seededTable.
Proof. vm_compute. intuition congruence. Qed.

Lemma table_add_wf (t : Task) (tb : Table) :
  id t = None -> table_wf tb -> table_wf (snd (table_add t tb)).
Proof.
  unfold table_wf, table_add. intros -> [Hn Hwf]. simpl.
  split; [lia | now apply keysAbove_add].
Qed.

Lemma table_update_wf (key : option Z) (c : Changes) (tb : Table) :
  table_wf tb -> table_wf (snd (table_update key c tb)).
Proof.
  unfold table_wf, table_update. intros [Hn Hwf]. destruct key as [k|]; simpl.
  - split; [exact Hn | now apply keysAbove_update].
  - now split.
Qed.

Lemma table_delete_wf (k : Z) (tb : Table) :
  table_wf tb -> table_wf (snd (table_delete k tb)).
Proof.
  unfold table_wf, table_delete. simpl. intros [Hn Hwf].
  split; [exact Hn | now apply keysAbove_delete].
Qed.

Lemma not_reloaded_single {UI} (w w' : World UI) (call : StoreCall) (u : UI) :
  awaits w' = awaits w ++ [(call, u)] -> call <> CallToArray ->
  ~ Reloaded w w'.
Proof.
  intros Ha Hc [calls [u' H]]. rewrite Ha in H.
  apply app_inv_head in H.
  change [(call, u)] with ([] ++ [(call, u)]) in H.
  apply app_inj_tail in H as [_ H]. congruence.
Qed.

(** ** Running the handlers *)

Arguments js : simpl never.

Ltac run_async :=
  unfold mbind, async_bind, mret, async_ret, tryCatchFinally, tryCatch,
    getUI, modifyUI, db_toArray, db_add, db_update, db_delete;
  cbn.

Ltac unfold_page :=
  unfold Page.handleSubmit, Page.deleteTask, Page.loadTasks,
    Page.addNotification, Page.consoleLog, Page.consoleError;
  run_async.

(** Case analysis along the control flow of a handler: the test on the
    title, the editing marker, and the outcome of each call to the store. *)
Ltac handler_cases :=
  repeat first
    [ progress cbn
    | rewrite awaitTable_eq
    | match goal with
      | H : ?e ?c = _ |- context [match ?e ?c with _ => _ end] => rewrite H
      | H : trim ?s = _ |- context [trim ?s] => rewrite H
      | H : Page.editingTask ?u = _ |- context [Page.editingTask ?u] =>
          rewrite H
      | |- context [match ?e ?c with Resolve => _ | Reject _ => _ end] =>
          destruct (e c) eqn:?
      | |- context [truthy (trim ?s)] => destruct (trim s) eqn:?
      | |- context [match Page.editingTask ?u with _ => _ end] =>
          destruct (Page.editingTask u) eqn:?
      | |- context [table_update (id ?t)] => destruct (id t) eqn:?
      end ].

(** The notification looked for is found by its place among the new ones. *)
Ltac notified :=
  unfold ErrorNotified; cbn; rewrite <- ?app_assoc; cbn;
  lazymatch goal with
  | |- exists k before after,
        _ = _ ++ before
              ++ {| Page.n_id := k; Page.n_message := ?m;
                    Page.n_type := Page.error |} :: after =>
      lazymatch goal with
      | |- context [_ ++ [{| Page.n_id := ?i; Page.n_message := m;
                             Page.n_type := Page.error |}] = _] =>
          exists i, [], []; reflexivity
      | |- context [_ ++ [{| Page.n_id := ?i; Page.n_message := m;
                             Page.n_type := Page.error |}; ?y] = _] =>
          exists i, [], [y]; reflexivity
      | |- context [_ ++ [?x; {| Page.n_id := ?i; Page.n_message := m;
                                 Page.n_type := Page.error |}] = _] =>
          exists i, [x], []; reflexivity
      end
  end.

Ltac reloaded :=
  unfold Reloaded; cbn; rewrite <- ?app_assoc; cbn;
  first [ now eexists [], _ | now eexists [_], _ ].

Lemma loadTasks_resolved (w : World Page.State) :
  env w (clock w) = Resolve ->
  Page.tasks (ui (snd (Page.loadTasks w))) = storeRows (idb w).
Proof.
  destruct w as [u d e c a]. cbn. intros H.
  unfold_page. handler_cases. reflexivity.
Qed.

Lemma handleSubmit_insert_resolved (w : World Page.State) :
  Page.editingTask (ui w) = None ->
  trim (Page.newTaskTitle (ui w)) <> [] ->
  env w (clock w) = Resolve ->
  let w' := snd (Page.handleSubmit w) in
  idb w' = Some (snd (table_add (typedTask (ui w)) (storeTable (idb w))))
  /\ env w' = env w
  /\ clock w' = S (S (clock w))
  /\ (env w (S (clock w)) = Resolve ->
        Page.tasks (ui w')
        = rows (snd (table_add (typedTask (ui w)) (storeTable (idb w))))).
Proof.
  destruct w as [u d e c a]. cbn. intros He Ht Hadd.
  unfold typedTask. unfold_page.
  handler_cases; try contradiction; rewrite ?storeTable_Some; repeat split.
  all: first [reflexivity | intros; reflexivity | intros; discriminate].
Qed.

Lemma handleSubmit_edit_store (w : World Page.State) (edited : Task) :
  Page.editingTask (ui w) = Some edited ->
  trim (Page.newTaskTitle (ui w)) <> [] ->
  storeRows (idb (snd (Page.handleSubmit w)))
  = match env w (clock w), id edited with
    | Resolve, Some k =>
        map (fun r => if hasKey k r then applyChanges (typedChanges (ui w)) r
                      else r)
          (storeRows (idb w))
    | _, _ => storeRows (idb w)
    end.
Proof.
  destruct w as [u d e c a]. cbn. intros He Ht.
  unfold typedChanges. unfold_page.
  handler_cases; try contradiction.
  all: unfold storeRows; rewrite ?storeTable_Some; reflexivity.
Qed.

(** The handlers keep the table well formed: its keys stay distinct,
    ordered and below the generator, which is why the last row is the last
    one inserted. *)
Lemma handlers_keep_table_wf (w : World Page.State) :
  table_wf (storeTable (idb w)) ->
  table_wf (storeTable (idb (snd (Page.loadTasks w))))
  /\ table_wf (storeTable (idb (snd (Page.handleSubmit w))))
  /\ forall key, table_wf (storeTable (idb (snd (Page.deleteTask key w)))).
Proof.
  destruct w as [u d e c a]. cbn. intros Hwf. split; [|split].
  - unfold_page. handler_cases; rewrite ?storeTable_Some; exact Hwf.
  - unfold_page. handler_cases; rewrite ?storeTable_Some; try exact Hwf.
    all: first
      [ exact (table_update_wf (Some _) _ _ Hwf)
      | refine (table_add_wf {| id := None; title := _; description := _;
                                status := active |} _ eq_refl Hwf) ].
  - intros [k|]; unfold_page; handler_cases; rewrite ?storeTable_Some;
      try exact Hwf.
    all: exact (table_delete_wf _ _ Hwf).
Qed.

(** ** The statements of the specification *)

(** C1: the filtered view for a snapshot and a query.  The query is
    lower-cased and trimmed; when nothing is left the view is the snapshot
    itself; otherwise the view is made of the tasks of the snapshot that are
    kept (the query is a substring of the lower-cased title, or the
    description is present and the query is a substring of the lower-cased
    description), in the order of the snapshot.  With the three seeded tasks
    loaded, the query "отчет" gives the task "Завершить отчет" alone. *)
Theorem filteredTasks_keeps_matching_in_order :
  (forall (CM : CaseMapping) (snapshot : list Task) (q : jsstring),
     let view := filteredTasks snapshot q in
     match trim (toLowerCase q) with
     | [] => view = snapshot
     | c :: rest =>
         KeptInOrder (Kept (c :: rest)) snapshot view
         /\ sublist view snapshot
         /\ forall T, In T view <-> In T snapshot /\ Kept (c :: rest) T
     end)
  /\ (let seeded :=
        Page.tasks
          (ui (snd (Page.onMount (browser Page.initialState None allResolve)))) in
      length seeded = 3%nat
      /\ exists T,
           @filteredTasks basicCaseMapping seeded (js "отчет") = [T]
           /\ title T = js "Завершить отчет"
           /\ seeded !! 1%nat = Some T).
Proof.
  split.
  - intros CM snapshot q view. unfold view, filteredTasks.
    destruct (trim (toLowerCase q)) as [|c rest] eqn:Hq; simpl; [reflexivity |].
    assert (HK : KeptInOrder (Kept (c :: rest)) snapshot
                   (List.filter (matchesQuery (c :: rest)) snapshot))
      by (apply filter_KeptInOrder; discriminate).
    split; [exact HK |].
    split; [exact (KeptInOrder_sublist _ _ _ HK) |].
    exact (KeptInOrder_In _ _ _ HK).
  - split; [reflexivity |]. eexists. repeat split.
Qed.

Lemma filteredTasks_keeps_matching_in_order_witness :
  @filteredTasks basicCaseMapping seedTasks (js "  ") = seedTasks.
Proof.
  exact (proj1 filteredTasks_keeps_matching_in_order basicCaseMapping
           seedTasks (js "  ")).
Defined.

(** C2: with no task being edited and a title that is not blank, when the
    store performs the insert and the listing of the reload, the snapshot
    and the store after [handleSubmit] are the rows that the store held
    followed by one new record; its title and description are the trimmed
    inputs (the empty string for an empty description input), its status is
    [active], and its key is the one the generator gave, which no row of a
    well-formed table bears; a further reload gives the same snapshot. *)
Theorem handleSubmit_inserts_one_task (w : World Page.State) :
  Page.editingTask (ui w) = None ->
  trim (Page.newTaskTitle (ui w)) <> [] ->
  env w (clock w) = Resolve ->
  env w (S (clock w)) = Resolve ->
  let created :=
    {| id := Some (nextKey (storeTable (idb w)));
       title := trim (Page.newTaskTitle (ui w));
       description := Some (trim (Page.newTaskDescription (ui w)));
       status := active |} in
  let w' := snd (Page.handleSubmit w) in
  Page.tasks (ui w') = storeRows (idb w) ++ [created]
  /\ storeRows (idb w') = storeRows (idb w) ++ [created]
  /\ (Page.newTaskDescription (ui w) = [] -> description created = Some [])
  /\ (table_wf (storeTable (idb w)) ->
        ~ In (id created) (map id (storeRows (idb w)))
        /\ table_wf (storeTable (idb w')))
  /\ (env w (S (S (clock w))) = Resolve ->
        Page.tasks (ui (snd (Page.loadTasks w'))) = storeRows (idb w) ++ [created]).
Proof.
  intros He Ht Hadd Hlist created w'.
  destruct (handleSubmit_insert_resolved w He Ht Hadd)
    as [Hdb [Henv [Hclock Htasks]]].
  fold w' in Hdb, Henv, Hclock, Htasks. specialize (Htasks Hlist).
  assert (Hrows : storeRows (idb w') = storeRows (idb w) ++ [created]).
  { rewrite Hdb. reflexivity. }
  repeat split.
  - exact Htasks.
  - exact Hrows.
  - intros Hd. unfold created. cbn. now rewrite Hd.
  - intros Hin. apply in_map_iff in Hin as [r [Hid Hin]].
    destruct H as [_ H].
    destruct (keysAbove_In _ _ _ r H Hin) as [k [Hk Hb]].
    unfold created in Hid. cbn in Hid. rewrite Hk in Hid.
    injection Hid as ->. lia.
  - rewrite Hdb, storeTable_Some.
    apply (table_add_wf (typedTask (ui w))); [reflexivity | exact H].
  - rewrite Hdb, storeTable_Some.
    apply (table_add_wf (typedTask (ui w))); [reflexivity | exact H].
  - intros Hnext. rewrite loadTasks_resolved; [exact Hrows |].
    rewrite Henv, Hclock. exact Hnext.
Qed.

Lemma handleSubmit_inserts_one_task_witness :
  let w := browser (formState (rows seededTable) (js "  Почта ") (js " ") None)
             (Some seededTable) allResolve in
  map id (Page.tasks (ui (snd (Page.handleSubmit w))))
  = [Some 1; Some 2; Some 3; Some 4]%Z.
Proof.
  intros w.
  assert (Ht : trim (Page.newTaskTitle (ui w)) <> []) by (vm_compute; discriminate).
  rewrite (proj1 (handleSubmit_inserts_one_task w eq_refl Ht eq_refl eq_refl)).
  reflexivity.
Defined.

(** C3: with a title that is empty or white space only, [handleSubmit]
    returns after the validation: the store is not called (no write, no
    listing), the database, the snapshot and the loading flag are as before,
    and exactly one notification is added, the validation error. *)
Theorem handleSubmit_blank_title (w : World Page.State) :
  Blank (Page.newTaskTitle (ui w)) ->
  let w' := snd (Page.handleSubmit w) in
  fst (Page.handleSubmit w) = Normal tt
  /\ awaits w' = awaits w
  /\ clock w' = clock w
  /\ idb w' = idb w
  /\ Page.tasks (ui w') = Page.tasks (ui w)
  /\ Page.isLoading (ui w') = Page.isLoading (ui w)
  /\ Page.notifications (ui w') =
     Page.notifications (ui w)
       ++ [{| Page.n_id := Page.notificationIdCounter (ui w);
              Page.n_message := Page.msgEmptyTitle;
              Page.n_type := Page.error |}].
Proof.
  destruct w as [u d e c a]. cbn. intros Hb.
  apply trim_empty in Hb.
  unfold_page. rewrite Hb. cbn. repeat split.
Qed.

Lemma handleSubmit_blank_title_witness :
  let w := browser (formState (rows seededTable) (js "   ") (js "x") None)
             (Some seededTable) allResolve in
  Blank (Page.newTaskTitle (ui w))
  /\ awaits (snd (Page.handleSubmit w)) = [].
Proof.
  intros w.
  assert (H : Blank (Page.newTaskTitle (ui w))).
  { apply trim_empty. reflexivity. }
  split; [exact H |].
  exact (proj1 (proj2 (handleSubmit_blank_title w H))).
Defined.

(** C4: a submission with a title while a task is being edited changes, in
    the store, nothing but the title and the description of the rows that
    bear the key of that task: the keys and the statuses of all rows are
    those before, every row with another key is the row it was, and when
    the update resolves the row with that key has the trimmed inputs as
    title and description, with its key and status. *)
Theorem handleSubmit_edit_frame (w : World Page.State) (edited : Task) :
  Page.editingTask (ui w) = Some edited ->
  trim (Page.newTaskTitle (ui w)) <> [] ->
  let before := storeRows (idb w) in
  let after := storeRows (idb (snd (Page.handleSubmit w))) in
  map id after = map id before
  /\ map status after = map status before
  /\ (forall i r, before !! i = Some r -> id r <> id edited ->
        after !! i = Some r)
  /\ (forall k i r,
        id edited = Some k -> env w (clock w) = Resolve ->
        before !! i = Some r -> id r = Some k ->
        after !! i
        = Some {| id := id r;
                  title := trim (Page.newTaskTitle (ui w));
                  description := Some (trim (Page.newTaskDescription (ui w)));
                  status := status r |}).
Proof.
  intros He Ht before after. unfold after.
  rewrite (handleSubmit_edit_store w edited He Ht). fold before.
  destruct (env w (clock w)) eqn:Hc; destruct (id edited) as [k|] eqn:Hk.
  2-4: repeat split; first [assumption | discriminate | congruence].
  repeat split.
  - apply update_keeps_id.
  - apply update_keeps_status.
  - intros i r Hi Hne. rewrite (update_lookup k _ _ i r Hi).
    apply hasKey_false in Hne. now rewrite Hne.
  - intros k' i r Hk' _ Hi Hr. injection Hk' as <-.
    rewrite (update_lookup k _ _ i r Hi).
    apply hasKey_true in Hr. now rewrite Hr.
Qed.

Lemma handleSubmit_edit_frame_witness :
  let edited :=
    {| id := Some 3%Z; title := js "Позвонить другу";
       description := Some (js "Узнать как дела"); status := completed |} in
  let w := browser
             (formState (rows seededTable) (js " Позвонить брату ") [] (Some edited))
             (Some seededTable) allResolve in
  map status (storeRows (idb (snd (Page.handleSubmit w))))
  = [active; active; completed].
Proof.
  intros edited w.
  assert (Ht : trim (Page.newTaskTitle (ui w)) <> []) by (vm_compute; discriminate).
  rewrite (proj1 (proj2 (handleSubmit_edit_frame w edited eq_refl Ht))).
  reflexivity.
Defined.

(** C5: the first call to a database that does not exist yet creates it and
    seeds it, and a listing then returns the three example tasks in the
    order of their insertion, with the keys 1, 2 and 3; a database that
    exists is opened as it is, without seeding, even when it has no row.  *)
Theorem populate_seeds_on_creation_only :
  (forall UI (w : World UI),
     idb w = None -> env w (clock w) = Resolve ->
     exists listed,
       fst (db_toArray w) = Normal listed
       /\ listed = zip_with withId [1; 2; 3]%Z seedTasks
       /\ map (fun t => (title t, status t)) listed
          = [(js "Купить продукты", active);
             (js "Завершить отчет", active);
             (js "Позвонить другу", completed)]
       /\ idb (snd (db_toArray w)) = Some {| rows := listed; nextKey := 4 |})
  /\ length seedTasks = 3%nat
  /\ Page.tasks (ui (snd (Page.onMount (browser Page.initialState None allResolve))))
     = zip_with withId [1; 2; 3]%Z seedTasks
  /\ (forall tb, dexie_open (Some tb) = Normal tb)
  /\ (forall tb,
        Page.tasks
          (ui (snd (Page.onMount
                      (browser Page.initialState (Some tb) allResolve))))
        = rows tb)
  /\ (forall UI (w : World UI) (tb : Table),
        idb w = Some tb -> env w (clock w) = Resolve ->
        fst (db_toArray w) = Normal (rows tb)
        /\ idb (snd (db_toArray w)) = Some tb).
Proof.
  split; [|split; [|split; [|split; [|split]]]].
  - intros UI [u d e c a]. cbn. intros -> Hr.
    eexists. unfold db_toArray. rewrite awaitTable_eq. cbn. rewrite Hr.
    repeat split.
  - reflexivity.
  - reflexivity.
  - reflexivity.
  - intros tb. apply loadTasks_resolved. reflexivity.
  - intros UI [u d e c a] tb. cbn. intros -> Hr.
    unfold db_toArray. rewrite awaitTable_eq. cbn. rewrite Hr.
    split; reflexivity.
Qed.

Lemma populate_seeds_on_creation_only_witness :
  exists listed,
    fst (db_toArray (browser Page.initialState None allResolve)) = Normal listed
    /\ length listed = 3%nat.
Proof.
  destruct (proj1 populate_seeds_on_creation_only Page.State
              (browser Page.initialState None allResolve) eq_refl eq_refl)
    as [listed [H1 [H2 _]]].
  exists listed. split; [exact H1 | now rewrite H2].
Defined.

(** C6, as the code has it: a submission with a title reloads after its
    insert or update, whether that call resolved or rejected; a deletion
    completes normally and reloads when the delete resolves, and when the
    delete rejects it only reports the error, with no reload, the snapshot
    and the database as before; the snapshot after a handler is the one
    before or the full listing of the store; deleting a key that the store
    does not hold leaves its rows as they are. *)
Theorem mutations_reload_when_store_was_reached (w : World Page.State) :
  (trim (Page.newTaskTitle (ui w)) <> [] ->
     Reloaded w (snd (Page.handleSubmit w)))
  /\ (forall k,
        let w' := snd (Page.deleteTask (Some k) w) in
        fst (Page.deleteTask (Some k) w) = Normal tt
        /\ match env w (clock w) with
           | Resolve => Reloaded w w'
           | Reject _ =>
               ~ Reloaded w w'
               /\ awaits w' = awaits w ++ [(CallDelete k, ui w)]
               /\ Page.tasks (ui w') = Page.tasks (ui w)
               /\ idb w' = idb w
           end)
  /\ (Wholesale w (snd (Page.loadTasks w))
      /\ Wholesale w (snd (Page.handleSubmit w))
      /\ forall key, Wholesale w (snd (Page.deleteTask key w)))
  /\ (forall k,
        (forall r, In r (storeRows (idb w)) -> id r <> Some k) ->
        env w (clock w) = Resolve ->
        storeRows (idb (snd (Page.deleteTask (Some k) w))) = storeRows (idb w)).
Proof.
  destruct w as [u d e c a]. cbn. repeat split.
  - intros Ht. unfold_page. handler_cases; try contradiction; reloaded.
  - unfold_page. handler_cases; reflexivity.
  - unfold_page. destruct (e c) eqn:He; handler_cases; try reloaded.
    all: repeat split.
    all: eapply not_reloaded_single; [reflexivity | discriminate].
  - unfold Wholesale. unfold_page.
    handler_cases; (left; reflexivity) || (right; reflexivity).
  - unfold Wholesale. unfold_page.
    handler_cases; (left; reflexivity) || (right; reflexivity).
  - unfold Wholesale. intros [k|]; unfold_page;
      handler_cases; (left; reflexivity) || (right; reflexivity).
  - intros k Habs Hr. unfold_page. handler_cases.
    all: unfold storeRows; rewrite storeTable_Some; cbn.
    all: now apply delete_absent.
Qed.

Lemma mutations_reload_when_store_was_reached_witness :
  let w := browser (formState [] (js "отчет") [] None) None allReject in
  trim (Page.newTaskTitle (ui w)) <> []
  /\ Reloaded w (snd (Page.handleSubmit w)).
Proof.
  intros w.
  assert (H : trim (Page.newTaskTitle (ui w)) <> []) by (vm_compute; discriminate).
  split; [exact H |].
  exact (proj1 (mutations_reload_when_store_was_reached w) H).
Defined.

(** C6, counterexample to the claim as it is written: when the store
    rejects the delete, [deleteTask] completes without a reload. *)
Lemma delete_rejected_is_not_followed_by_reload :
  env wStoreDown (clock wStoreDown) = Reject (StoreFailure 0)
  /\ fst (Page.deleteTask (Some 1%Z) wStoreDown) = Normal tt
  /\ ~ Reloaded wStoreDown (snd (Page.deleteTask (Some 1%Z) wStoreDown)).
Proof.
  split; [reflexivity |]. split; [reflexivity |].
  apply (not_reloaded_single _ _ (CallDelete 1) (ui wStoreDown));
    [reflexivity | discriminate].
Qed.

(** C7: [loadTasks] sets the loading flag and lists the table with the flag
    set; whatever the outcome of the listing, the flag is cleared when it
    completes; when the listing resolves the snapshot is replaced by the
    records returned; when it rejects, one error notification is added and
    the snapshot is the one before. *)
Theorem loadTasks_loading_and_snapshot (w : World Page.State) :
  let w' := snd (Page.loadTasks w) in
  fst (Page.loadTasks w) = Normal tt
  /\ awaits w' = awaits w ++ [(CallToArray, Page.set_isLoading true (ui w))]
  /\ Page.isLoading (ui w') = false
  /\ match env w (clock w) with
     | Resolve =>
         Page.tasks (ui w') = storeRows (idb w)
         /\ Page.notifications (ui w') = Page.notifications (ui w)
     | Reject e =>
         Page.tasks (ui w') = Page.tasks (ui w)
         /\ Page.notifications (ui w') =
            Page.notifications (ui w)
              ++ [{| Page.n_id := Page.notificationIdCounter (ui w);
                     Page.n_message := Page.msgLoadFailed;
                     Page.n_type := Page.error |}]
     end.
Proof.
  destruct w as [u d e c a]. unfold_page. handler_cases; repeat split.
Qed.

(** C8: a submission whose trimmed title is not empty completes with the
    editing marker cleared and both fields of the form empty, whether the
    insert or the update resolved or rejected. *)
Theorem handleSubmit_resets_form (w : World Page.State) :
  trim (Page.newTaskTitle (ui w)) <> [] ->
  let w' := snd (Page.handleSubmit w) in
  fst (Page.handleSubmit w) = Normal tt
  /\ Page.editingTask (ui w') = None
  /\ Page.newTaskTitle (ui w') = []
  /\ Page.newTaskDescription (ui w') = [].
Proof.
  destruct w as [u d e c a]. cbn. intros Ht.
  unfold_page. handler_cases; try contradiction; repeat split; assumption.
Qed.

Lemma handleSubmit_resets_form_witness :
  let w := browser (formState [] (js " почта ") [] None) None allReject in
  trim (Page.newTaskTitle (ui w)) <> []
  /\ Page.newTaskTitle (ui (snd (Page.handleSubmit w))) = [].
Proof.
  intros w.
  assert (H : trim (Page.newTaskTitle (ui w)) <> []) by (vm_compute; discriminate).
  split; [exact H |].
  exact (proj1 (proj2 (proj2 (handleSubmit_resets_form w H)))).
Defined.

(** C9: [loadTasks], [handleSubmit] and [deleteTask] complete normally in
    every world, whatever the store answers; a call that rejects is caught
    in the handler and reported by an error notification. *)
Theorem handlers_never_throw (w : World Page.State) :
  fst (Page.loadTasks w) = Normal tt
  /\ fst (Page.handleSubmit w) = Normal tt
  /\ (forall key, fst (Page.deleteTask key w) = Normal tt)
  /\ (forall e, env w (clock w) = Reject e ->
        ErrorNotified Page.msgLoadFailed w (snd (Page.loadTasks w))
        /\ (forall k,
              ErrorNotified Page.msgDeleteFailed w
                (snd (Page.deleteTask (Some k) w)))
        /\ (trim (Page.newTaskTitle (ui w)) <> [] ->
              ErrorNotified
                match Page.editingTask (ui w) with
                | Some _ => Page.msgUpdateFailed
                | None => Page.msgAddFailed
                end w (snd (Page.handleSubmit w))))
  /\ (forall e, env w (S (clock w)) = Reject e ->
        (forall k, env w (clock w) = Resolve ->
           ErrorNotified Page.msgLoadFailed w
             (snd (Page.deleteTask (Some k) w)))
        /\ (trim (Page.newTaskTitle (ui w)) <> [] ->
              ErrorNotified Page.msgLoadFailed w (snd (Page.handleSubmit w)))).
Proof.
  destruct w as [u d e c a]. cbn. repeat split.
  - unfold_page. handler_cases; reflexivity.
  - unfold_page. handler_cases; reflexivity.
  - intros [k|]; unfold_page; handler_cases; reflexivity.
  - unfold_page. handler_cases. notified.
  - intros k. unfold_page. handler_cases. notified.
  - intros Ht. unfold_page. handler_cases; try contradiction; notified.
  - intros k Hr. unfold_page. handler_cases. notified.
  - intros Ht. unfold_page. handler_cases; try contradiction; notified.
Qed.

Lemma handlers_never_throw_witness :
  let w := browser (formState [] (js "отчет") [] None) None allReject in
  env w (clock w) = Reject (StoreFailure 0)
  /\ ErrorNotified Page.msgLoadFailed w (snd (Page.loadTasks w)).
Proof.
  intros w. split; [reflexivity |].
  exact (proj1 (proj1 (proj2 (proj2 (proj2 (handlers_never_throw w))))
                  (StoreFailure 0) eq_refl)).
Defined.

(** C10: [deleteTask(undefined)] returns at once and leaves the whole world
    as it is: no call to the store, no notification or dialog, no reload;
    in the page with notifications and in the page with the modal dialog. *)
Theorem deleteTask_undefined_noop :
  (forall w : World Page.State, Page.deleteTask None w = (Normal tt, w))
  /\ (forall w : World ModalPage.State,
        ModalPage.deleteTask None w = (Normal tt, w)).
Proof. split; intros w; reflexivity. Qed.

(** ** Further properties of the page with notifications *)

Lemma trimStart_suffix (s : jsstring) : exists ws, s = ws ++ trimStart s.
Proof.
  induction s as [|c s [ws IH]]; simpl.
  - now exists [].
  - destruct (isWhiteSpace c).
    + exists (c :: ws). simpl. now rewrite <- IH.
    + now exists [].
Qed.

Lemma trimStart_fixed (s : jsstring) :
  match s with [] => True | c :: _ => isWhiteSpace c = false end ->
  trimStart s = s.
Proof. destruct s as [|c s]; simpl; [reflexivity | now intros ->]. Qed.

Lemma trimStart_idempotent (s : jsstring) :
  trimStart (trimStart s) = trimStart s.
Proof. apply trimStart_fixed, trimStart_head. Qed.

Lemma trimEnd_idempotent (s : jsstring) : trimEnd (trimEnd s) = trimEnd s.
Proof.
  unfold trimEnd. now rewrite rev_involutive, trimStart_idempotent.
Qed.

Lemma trimEnd_head (s : jsstring) :
  match s with [] => True | c :: _ => isWhiteSpace c = false end ->
  match trimEnd s with [] => True | c :: _ => isWhiteSpace c = false end.
Proof.
  intros Hs. unfold trimEnd.
  destruct (trimStart_suffix (rev s)) as [ws Hws].
  assert (H : s = rev (trimStart (rev s)) ++ rev ws).
  { rewrite <- rev_app_distr, <- Hws. now rewrite rev_involutive. }
  destruct (rev (trimStart (rev s))) as [|c r]; [exact I |].
  rewrite H in Hs. exact Hs.
Qed.

Lemma trim_idempotent (s : jsstring) : trim (trim s) = trim s.
Proof.
  unfold trim.
  rewrite (trimStart_fixed (trimEnd (trimStart s))).
  - apply trimEnd_idempotent.
  - apply trimEnd_head, trimStart_head.
Qed.

Lemma trim_Trimmed (s : jsstring) : Trimmed (trim s).
Proof. apply trim_idempotent. Qed.

Lemma filter_filter_same {A} (p : A -> bool) (l : list A) :
  List.filter p (List.filter p l) = List.filter p l.
Proof.
  induction l as [|x l IH]; simpl; [reflexivity |].
  destruct (p x) eqn:Hp; simpl; [rewrite Hp; now f_equal | exact IH].
Qed.

Lemma filter_filter_comm {A} (p q : A -> bool) (l : list A) :
  List.filter p (List.filter q l) = List.filter q (List.filter p l).
Proof.
  induction l as [|x l IH]; simpl; [reflexivity |].
  destruct (p x) eqn:Hp; destruct (q x) eqn:Hq; simpl;
    rewrite ?Hp, ?Hq; now rewrite ?IH.
Qed.

Lemma keysAbove_unique (low bound : Z) (rs : list Task) (r r' : Task) :
  keysAbove low bound rs -> In r rs -> In r' rs -> id r = id r' -> r = r'.
Proof.
  revert low. induction rs as [|r0 rs IH]; intros low Hk Hr Hr' Hid;
    [destruct Hr |].
  simpl in Hk. destruct (id r0) as [k0|] eqn:Hk0; [|destruct Hk].
  destruct Hk as [Hb Hrs].
  destruct Hr as [<- | Hr]; destruct Hr' as [<- | Hr'].
  - reflexivity.
  - destruct (keysAbove_In _ _ _ _ Hrs Hr') as [k [Hk' Hlt]].
    rewrite Hk0, Hk' in Hid. injection Hid as ->. lia.
  - destruct (keysAbove_In _ _ _ _ Hrs Hr) as [k [Hk' Hlt]].
    rewrite Hk0, Hk' in Hid. injection Hid as ->. lia.
  - exact (IH k0 Hrs Hr Hr' Hid).
Qed.

Lemma keysAbove_NoDup (low bound : Z) (rs : list Task) :
  keysAbove low bound rs -> NoDup (map id rs).
Proof.
  revert low. induction rs as [|r rs IH]; intros low Hk; simpl.
  - constructor.
  - simpl in Hk. destruct (id r) as [k|] eqn:Hid; [|destruct Hk].
    destruct Hk as [Hb Hrs]. constructor; [|exact (IH k Hrs)].
    rewrite list_elem_of_In. intros Hin.
    apply in_map_iff in Hin as [r' [Hr' Hin]].
    destruct (keysAbove_In _ _ _ _ Hrs Hin) as [k' [Hk' Hlt]].
    rewrite Hk' in Hr'. injection Hr' as ->. lia.
Qed.

Lemma runEvents_invariant (Inv : World Page.State -> Prop) :
  (forall w ev, Inv w -> Inv (snd (runEvent ev w))) ->
  forall evs w, Inv w -> Inv (runEvents evs w).
Proof.
  intros Hstep evs. induction evs as [|ev evs IH]; intros w Hw; simpl.
  - exact Hw.
  - apply IH, Hstep, Hw.
Qed.

Ltac unfold_event :=
  unfold runEvent, Page.onMount, Page.editTask, Page.dismissNotification;
  unfold_page.

Lemma fresh_add (l : list Page.Notification) (ts : list (Z * Z)) (c : Z)
    (m : jsstring) (t : Page.NotificationType) :
  NoDup (map Page.n_id l)
  /\ Forall (fun n => (Page.n_id n < c)%Z) l
  /\ Forall (fun t => (snd t < c)%Z) ts ->
  NoDup (map Page.n_id
           (l ++ [{| Page.n_id := c; Page.n_message := m; Page.n_type := t |}]))
  /\ Forall (fun n => (Page.n_id n < c + 1)%Z)
       (l ++ [{| Page.n_id := c; Page.n_message := m; Page.n_type := t |}])
  /\ Forall (fun t => (snd t < c + 1)%Z) (ts ++ [(2000%Z, c)]).
Proof.
  intros [Hnd [Hl Hts]]. repeat split.
  - rewrite map_app. apply NoDup_app. split; [exact Hnd |]. split.
    + intros i Hi Hc. simpl in Hc. apply list_elem_of_In in Hc.
      destruct Hc as [<- | []].
      apply list_elem_of_In, in_map_iff in Hi as [n [Hn Hin]].
      rewrite Forall_forall in Hl.
      specialize (Hl n (proj2 (list_elem_of_In _ _) Hin)). lia.
    + simpl. apply NoDup_singleton.
  - apply Forall_app. split.
    + eapply Forall_impl; [exact Hl | intros n Hn; simpl in Hn; lia].
    + constructor; [simpl; lia | constructor].
  - apply Forall_app. split.
    + eapply Forall_impl; [exact Hts | intros n Hn; simpl in Hn; lia].
    + constructor; [simpl; lia | constructor].
Qed.

Lemma Forall_List_filter {A} (P : A -> Prop) (p : A -> bool) (l : list A) :
  Forall P l -> Forall P (List.filter p l).
Proof.
  induction 1 as [|x l Hx _ IH]; simpl; [constructor |].
  destruct (p x); [now constructor | exact IH].
Qed.

Lemma NoDup_map_List_filter {A B} (f : A -> B) (p : A -> bool) (l : list A) :
  NoDup (map f l) -> NoDup (map f (List.filter p l)).
Proof.
  induction l as [|x l IH]; simpl; [trivial |].
  rewrite NoDup_cons. intros [Hx Hl]. destruct (p x); simpl.
  - rewrite NoDup_cons. split; [|now apply IH].
    intros Hin. apply Hx.
    apply list_elem_of_In, in_map_iff in Hin as [y [Hy Hin]].
    apply filter_In in Hin as [Hin _].
    apply list_elem_of_In, in_map_iff. now exists y.
  - now apply IH.
Qed.

Lemma fresh_dismiss (l : list Page.Notification) (ts : list (Z * Z))
    (c i : Z) :
  NoDup (map Page.n_id l)
  /\ Forall (fun n => (Page.n_id n < c)%Z) l
  /\ Forall (fun t => (snd t < c)%Z) ts ->
  NoDup (map Page.n_id
           (List.filter (fun n => negb (Page.n_id n =? i)%Z) l))
  /\ Forall (fun n => (Page.n_id n < c)%Z)
       (List.filter (fun n => negb (Page.n_id n =? i)%Z) l)
  /\ Forall (fun t => (snd t < c)%Z)
       (List.filter (fun t => negb (snd t =? i)%Z) ts).
Proof.
  intros [Hnd [Hl Hts]]. repeat split.
  - now apply NoDup_map_List_filter.
  - now apply Forall_List_filter.
  - now apply Forall_List_filter.
Qed.

(** X1: the identifiers of the notifications shown are distinct and, with
    those of the running timers, below the counter; every event of the page
    keeps this, whatever the store answers, so it holds in every state
    reached from a first visit. *)
Theorem notifications_stay_fresh :
  (forall w ev,
     NotificationsFresh (ui w) -> NotificationsFresh (ui (snd (runEvent ev w))))
  /\ (forall outcomes evs,
        NotificationsFresh (ui (runEvents evs (firstVisit outcomes)))).
Proof.
  assert (Hstep : forall w ev,
    NotificationsFresh (ui w) -> NotificationsFresh (ui (snd (runEvent ev w)))).
  { intros [u d e c a] ev. unfold NotificationsFresh. cbn. intros Hf.
    destruct ev as [| |task|[k|]|i|v|v|v]; unfold_event; handler_cases.
    all: first [ exact Hf
               | apply fresh_dismiss; exact Hf
               | apply fresh_add; exact Hf
               | apply fresh_add, fresh_add; exact Hf ]. }
  split; [exact Hstep |].
  intros outcomes evs.
  apply (runEvents_invariant (fun w => NotificationsFresh (ui w)) Hstep).
  unfold NotificationsFresh. cbn. repeat split; constructor.
Qed.

Lemma notifications_stay_fresh_witness :
  NotificationsFresh (ui (firstVisit allReject))
  /\ NotificationsFresh (ui (snd (runEvent EvSubmit (firstVisit allReject)))).
Proof.
  assert (H : NotificationsFresh (ui (firstVisit allReject))).
  { unfold NotificationsFresh. cbn. repeat split; constructor. }
  split; [exact H |].
  exact (proj1 notifications_stay_fresh (firstVisit allReject) EvSubmit H).
Defined.

Lemma cover_add (l : list Page.Notification) (ts : list (Z * Z)) (c : Z)
    (m : jsstring) (t : Page.NotificationType) :
  (forall n, In n l -> In (2000%Z, Page.n_id n) ts) ->
  forall n,
    In n (l ++ [{| Page.n_id := c; Page.n_message := m; Page.n_type := t |}]) ->
    In (2000%Z, Page.n_id n) (ts ++ [(2000%Z, c)]).
Proof.
  intros H n Hin. apply in_app_iff in Hin as [Hin | [<- | []]].
  - apply in_app_iff. left. now apply H.
  - apply in_app_iff. right. now left.
Qed.

Lemma cover_dismiss (l : list Page.Notification) (ts : list (Z * Z)) (i : Z) :
  (forall n, In n l -> In (2000%Z, Page.n_id n) ts) ->
  forall n,
    In n (List.filter (fun n => negb (Page.n_id n =? i)%Z) l) ->
    In (2000%Z, Page.n_id n)
      (List.filter (fun t => negb (snd t =? i)%Z) ts).
Proof.
  intros H n Hin. apply filter_In in Hin as [Hin Hne].
  apply filter_In. split; [now apply H | exact Hne].
Qed.

(** X2: every notification shown has its timer running, so that it will be
    removed: every event of the page keeps this (a timer that fires removes
    its notification and nothing else is ever removed from the timers), and
    it holds in every state reached from a first visit. *)
Theorem notifications_have_timers :
  (forall w ev, TimersCover (ui w) -> TimersCover (ui (snd (runEvent ev w))))
  /\ (forall outcomes evs,
        TimersCover (ui (runEvents evs (firstVisit outcomes)))).
Proof.
  assert (Hstep : forall w ev,
    TimersCover (ui w) -> TimersCover (ui (snd (runEvent ev w)))).
  { intros [u d e c a] ev. unfold TimersCover. cbn. intros Hf.
    destruct ev as [| |task|[k|]|i|v|v|v]; unfold_event; handler_cases.
    all: first [ exact Hf
               | apply cover_dismiss; exact Hf
               | apply cover_add; exact Hf
               | apply cover_add, cover_add; exact Hf ]. }
  split; [exact Hstep |].
  intros outcomes evs.
  apply (runEvents_invariant (fun w => TimersCover (ui w)) Hstep).
  intros n [].
Qed.

Lemma notifications_have_timers_witness :
  TimersCover (ui (firstVisit allReject))
  /\ TimersCover (ui (snd (runEvent EvMount (firstVisit allReject)))).
Proof.
  assert (H : TimersCover (ui (firstVisit allReject))) by (intros n []).
  split; [exact H |].
  exact (proj1 notifications_have_timers (firstVisit allReject) EvMount H).
Defined.

Lemma Tidy_applyChanges (c : Changes) (r : Task) :
  ch_title c <> [] -> Trimmed (ch_title c) -> Trimmed (ch_description c) ->
  Tidy (applyChanges c r).
Proof.
  intros Hn Ht Hd. repeat split; cbn; [exact Hn | exact Ht |].
  now exists (ch_description c).
Qed.

Lemma Tidy_update (k : Z) (c : Changes) (rs : list Task) :
  ch_title c <> [] -> Trimmed (ch_title c) -> Trimmed (ch_description c) ->
  Forall Tidy rs ->
  Forall Tidy (map (fun r => if hasKey k r then applyChanges c r else r) rs).
Proof.
  intros Hn Ht Hd. induction 1 as [|r rs Hr _ IH]; simpl; constructor.
  - destruct (hasKey k r); [now apply Tidy_applyChanges | exact Hr].
  - exact IH.
Qed.

Lemma Tidy_add (k : Z) (t d : jsstring) (rs : list Task) :
  t <> [] -> Trimmed t -> Trimmed d ->
  Forall Tidy rs ->
  Forall Tidy
    (rs ++ [withId k {| id := None; title := t; description := Some d;
                        status := active |}]).
Proof.
  intros Hn Ht Hd H. apply Forall_app. split; [exact H |].
  constructor; [|constructor]. repeat split; cbn; [exact Hn | exact Ht |].
  now exists d.
Qed.

Lemma seeded_rows_tidy : Forall Tidy (rows seededTable).
Proof.
  repeat constructor; try discriminate;
    try (eexists; split; reflexivity).
Qed.

Ltac trimmed_side :=
  first
    [ discriminate
    | apply trim_Trimmed
    | match goal with
      | H : trim ?s = ?x |- Trimmed ?x => rewrite <- H; apply trim_Trimmed
      end ].

(** X3: every row of the table is as the form writes it (a title that is
    trimmed and not empty, a description that is present and trimmed): the
    seeded rows are, and every event of the page keeps the rows so, whatever
    the store answers. *)
Theorem rows_stay_tidy :
  (forall w ev,
     Forall Tidy (storeRows (idb w)) ->
     Forall Tidy (storeRows (idb (snd (runEvent ev w)))))
  /\ (forall outcomes evs,
        Forall Tidy (storeRows (idb (runEvents evs (firstVisit outcomes))))).
Proof.
  assert (Hstep : forall w ev,
    Forall Tidy (storeRows (idb w)) ->
    Forall Tidy (storeRows (idb (snd (runEvent ev w))))).
  { intros [u d e c a] ev. cbn. intros Hf.
    destruct ev as [| |task|[k|]|i|v|v|v]; unfold_event; handler_cases.
    all: unfold storeRows in *; rewrite ?storeTable_Some; cbn.
    all: first
      [ exact Hf
      | apply Forall_List_filter; exact Hf
      | apply Tidy_add; [trimmed_side | trimmed_side | trimmed_side | exact Hf]
      | apply Tidy_update;
          [cbn; trimmed_side | cbn; trimmed_side | cbn; trimmed_side | exact Hf] ]. }
  split; [exact Hstep |].
  intros outcomes evs.
  apply (runEvents_invariant (fun w => Forall Tidy (storeRows (idb w))) Hstep).
  exact seeded_rows_tidy.
Qed.

Lemma rows_stay_tidy_witness :
  Forall Tidy (storeRows (idb (firstVisit allResolve)))
  /\ Forall Tidy
       (storeRows (idb (snd (runEvent (EvDelete (Some 2%Z))
                               (firstVisit allResolve))))).
Proof.
  split; [exact seeded_rows_tidy |].
  exact (proj1 rows_stay_tidy (firstVisit allResolve) (EvDelete (Some 2%Z))
           seeded_rows_tidy).
Defined.

Lemma table_wf_NoDup (tb : Table) : table_wf tb -> NoDup (map id (rows tb)).
Proof. intros [_ H]. exact (keysAbove_NoDup _ _ _ H). Qed.

(** X4: the table stays well formed (keys present, increasing, below the
    generator) and the keys of the snapshot stay distinct, as the keyed
    [each] block of the list needs: every event of the page keeps this,
    whatever the store answers, and it holds in every state reached from a
    first visit. *)
Theorem snapshot_keys_stay_distinct :
  (forall w ev, KeysDistinct w -> KeysDistinct (snd (runEvent ev w)))
  /\ (forall outcomes evs, KeysDistinct (runEvents evs (firstVisit outcomes))).
Proof.
  assert (Hstep : forall w ev,
    KeysDistinct w -> KeysDistinct (snd (runEvent ev w))).
  { intros [u d e c a] ev. unfold KeysDistinct. cbn. intros [Hwf Hnd].
    assert (Hadd : forall t dsc,
      table_wf (snd (table_add {| id := None; title := t; description := dsc;
                                  status := active |} (storeTable d))))
      by (intros; now apply table_add_wf).
    assert (Hupd : forall k ch, table_wf (snd (table_update k ch (storeTable d))))
      by (intros; now apply table_update_wf).
    assert (Hdel : forall k, table_wf (snd (table_delete k (storeTable d))))
      by (intros; now apply table_delete_wf).
    destruct ev as [| |task|[k|]|i|v|v|v]; unfold_event; handler_cases.
    all: rewrite ?storeTable_Some.
    all: split;
      first [ exact Hwf | exact Hnd
            | exact (Hadd _ _) | exact (Hupd (Some _) _) | exact (Hdel _)
            | exact (table_wf_NoDup _ Hwf)
            | exact (table_wf_NoDup _ (Hadd _ _))
            | exact (table_wf_NoDup _ (Hupd (Some _) _))
            | exact (table_wf_NoDup _ (Hdel _)) ]. }
  split; [exact Hstep |].
  intros outcomes evs. apply (runEvents_invariant KeysDistinct Hstep).
  split; [exact seededTable_wf | constructor].
Qed.

Lemma snapshot_keys_stay_distinct_witness :
  KeysDistinct (firstVisit allResolve)
  /\ KeysDistinct (snd (runEvent EvMount (firstVisit allResolve))).
Proof.
  assert (H : KeysDistinct (firstVisit allResolve))
    by (split; [exact seededTable_wf | constructor]).
  split; [exact H |].
  exact (proj1 snapshot_keys_stay_distinct (firstVisit allResolve) EvMount H).
Defined.

Lemma deleteTask_effect (w : World Page.State) (k : Z) :
  let w' := snd (Page.deleteTask (Some k) w) in
  env w' = env w
  /\ match env w (clock w) with
     | Reject _ =>
         idb w' = idb w /\ clock w' = S (clock w)
         /\ Page.tasks (ui w') = Page.tasks (ui w)
     | Resolve =>
         storeTable (idb w') = snd (table_delete k (storeTable (idb w)))
         /\ clock w' = S (S (clock w))
         /\ Page.notifications (ui w')
            = (Page.notifications (ui w)
                 ++ [{| Page.n_id := Page.notificationIdCounter (ui w);
                        Page.n_message := Page.msgDeleted;
                        Page.n_type := Page.success |}])
              ++ match env w (S (clock w)) with
                 | Resolve => []
                 | Reject _ =>
                     [{| Page.n_id := (Page.notificationIdCounter (ui w) + 1)%Z;
                         Page.n_message := Page.msgLoadFailed;
                         Page.n_type := Page.error |}]
                 end
         /\ (env w (S (clock w)) = Resolve ->
               Page.tasks (ui w')
               = rows (snd (table_delete k (storeTable (idb w)))))
     end.
Proof.
  destruct w as [u d e c a]. cbn.
  unfold_page. handler_cases; rewrite ?storeTable_Some; repeat split.
  all: first [ reflexivity | now rewrite app_nil_r
             | intros; reflexivity | intros; discriminate ].
Qed.

Lemma List_filter_sublist {A} (p : A -> bool) (l : list A) :
  sublist (List.filter p l) l.
Proof.
  induction l as [|x l IH]; simpl; [constructor |].
  destruct (p x); [now apply sublist_skip | now apply sublist_cons].
Qed.

Lemma delete_present_length (low bound k : Z) (rs : list Task) :
  keysAbove low bound rs -> In (Some k) (map id rs) ->
  S (length (List.filter (fun r => negb (hasKey k r)) rs)) = length rs.
Proof.
  revert low. induction rs as [|r rs IH]; intros low Hk Hin; [destruct Hin |].
  simpl in Hk. destruct (id r) as [k0|] eqn:Hid; [|destruct Hk].
  destruct Hk as [Hb Hrs]. simpl.
  destruct (hasKey k r) eqn:Hh; simpl.
  - apply hasKey_true in Hh. rewrite Hid in Hh. injection Hh as ->.
    rewrite delete_absent; [reflexivity |].
    intros r' Hr' Heq.
    destruct (keysAbove_In _ _ _ _ Hrs Hr') as [k' [Hk' Hlt]].
    rewrite Hk' in Heq. injection Heq as ->. lia.
  - f_equal. apply (IH k0 Hrs).
    destruct Hin as [Hin | Hin]; [|exact Hin].
    apply hasKey_false in Hh. congruence.
Qed.

(** X5: when the store performs the delete and the listing of the reload,
    [deleteTask(k)] leaves, in the store and in the snapshot, the rows that
    do not bear the key [k], in their order; the key generator is as before;
    in a well-formed table that holds the key exactly one row goes; and one
    success notification is added. *)
Theorem deleteTask_removes_only_that_row (w : World Page.State) (k : Z) :
  env w (clock w) = Resolve ->
  env w (S (clock w)) = Resolve ->
  let w' := snd (Page.deleteTask (Some k) w) in
  let kept := List.filter (fun r => negb (hasKey k r)) (storeRows (idb w)) in
  storeRows (idb w') = kept
  /\ Page.tasks (ui w') = kept
  /\ (forall r, In r kept <-> In r (storeRows (idb w)) /\ id r <> Some k)
  /\ sublist kept (storeRows (idb w))
  /\ nextKey (storeTable (idb w')) = nextKey (storeTable (idb w))
  /\ (table_wf (storeTable (idb w)) ->
      In (Some k) (map id (storeRows (idb w))) ->
      S (length kept) = length (storeRows (idb w)))
  /\ Page.notifications (ui w')
     = Page.notifications (ui w)
         ++ [{| Page.n_id := Page.notificationIdCounter (ui w);
                Page.n_message := Page.msgDeleted;
                Page.n_type := Page.success |}].
Proof.
  intros H0 H1 w' kept.
  pose proof (deleteTask_effect w k) as [_ He]. fold w' in He.
  rewrite H0, H1 in He. destruct He as [Ht [_ [Hn Hs]]].
  specialize (Hs eq_refl).
  split; [unfold storeRows; now rewrite Ht |].
  split; [exact Hs |].
  split.
  { intros r. unfold kept. rewrite filter_In, negb_true_iff, hasKey_false.
    reflexivity. }
  split; [apply List_filter_sublist |].
  split; [now rewrite Ht |].
  split.
  { intros [_ Hwf] Hin. exact (delete_present_length _ _ _ _ Hwf Hin). }
  rewrite Hn. apply app_nil_r.
Qed.

Lemma deleteTask_removes_only_that_row_witness :
  map id (Page.tasks (ui (snd (Page.deleteTask (Some 2%Z)
                                 (firstVisit allResolve)))))
  = [Some 1; Some 3]%Z.
Proof.
  rewrite (proj1 (proj2 (deleteTask_removes_only_that_row
                           (firstVisit allResolve) 2 eq_refl eq_refl))).
  reflexivity.
Defined.

Section FilteringComposition.
Context {CM : CaseMapping}.

Lemma filteredTasks_filter (p : Task -> bool) (ts : list Task) (q : jsstring) :
  filteredTasks (List.filter p ts) q = List.filter p (filteredTasks ts q).
Proof.
  unfold filteredTasks. destruct (negb (truthy (trim (toLowerCase q)))).
  - reflexivity.
  - apply filter_filter_comm.
Qed.

Lemma filteredTasks_app (ts ts' : list Task) (q : jsstring) :
  filteredTasks (ts ++ ts') q = filteredTasks ts q ++ filteredTasks ts' q.
Proof.
  unfold filteredTasks. destruct (negb (truthy (trim (toLowerCase q)))).
  - reflexivity.
  - apply List.filter_app.
Qed.

End FilteringComposition.

(** X6: the filtered view as a function of the snapshot, for every query:
    filtering the view again changes nothing; the view of a snapshot with
    tasks removed is the view with those tasks removed; the view of a
    snapshot followed by more tasks is the view followed by the view of
    these tasks. *)
Theorem filteredTasks_composes (CM : CaseMapping) (q : jsstring)
    (ts ts' : list Task) (p : Task -> bool) :
  filteredTasks (filteredTasks ts q) q = filteredTasks ts q
  /\ filteredTasks (List.filter p ts) q = List.filter p (filteredTasks ts q)
  /\ filteredTasks (ts ++ ts') q = filteredTasks ts q ++ filteredTasks ts' q.
Proof.
  split; [|split].
  - unfold filteredTasks. destruct (negb (truthy (trim (toLowerCase q)))).
    + reflexivity.
    + apply filter_filter_same.
  - apply filteredTasks_filter.
  - apply filteredTasks_app.
Qed.

(** X7: what a search in progress shows after a change, when the store
    performs the call and the listing of the reload.  After [deleteTask(k)]
    the view is the view of the store before, without the rows of key [k];
    after the insert of [handleSubmit] it is the view of the store before,
    followed by the new task when this one matches the query. *)
Theorem view_follows_delete_and_insert (CM : CaseMapping) (q : jsstring)
    (w : World Page.State) :
  env w (clock w) = Resolve ->
  env w (S (clock w)) = Resolve ->
  (forall k,
     filteredTasks (Page.tasks (ui (snd (Page.deleteTask (Some k) w)))) q
     = List.filter (fun r => negb (hasKey k r))
         (filteredTasks (storeRows (idb w)) q))
  /\ (Page.editingTask (ui w) = None ->
      trim (Page.newTaskTitle (ui w)) <> [] ->
      let created :=
        withId (nextKey (storeTable (idb w))) (typedTask (ui w)) in
      filteredTasks (Page.tasks (ui (snd (Page.handleSubmit w)))) q
      = filteredTasks (storeRows (idb w)) q
          ++ (if negb (truthy (trim (toLowerCase q)))
                 || matchesQuery (trim (toLowerCase q)) created
              then [created] else [])).
Proof.
  intros H0 H1. split.
  - intros k.
    pose proof (deleteTask_effect w k) as [_ He].
    rewrite H0 in He. destruct He as [_ [_ [_ Hs]]].
    rewrite (Hs H1). apply filteredTasks_filter.
  - intros He Ht created.
    destruct (handleSubmit_insert_resolved w He Ht H0) as [_ [_ [_ Hs]]].
    rewrite (Hs H1). cbn. fold created.
    change (rows (storeTable (idb w))) with (storeRows (idb w)).
    rewrite filteredTasks_app. f_equal.
    unfold filteredTasks.
    destruct (negb (truthy (trim (toLowerCase q)))); [reflexivity |].
    simpl. now destruct (matchesQuery _ created).
Qed.

Lemma view_follows_delete_and_insert_witness :
  map id
    (@filteredTasks basicCaseMapping
       (Page.tasks (ui (snd (Page.deleteTask (Some 2%Z)
                               (firstVisit allResolve)))))
       (js "Друг"))
  = [Some 3%Z].
Proof.
  rewrite (proj1 (view_follows_delete_and_insert basicCaseMapping (js "Друг")
                    (firstVisit allResolve) eq_refl eq_refl) 2%Z).
  reflexivity.
Defined.

Lemma update_absent (k : Z) (c : Changes) (rs : list Task) :
  (forall r, In r rs -> id r <> Some k) ->
  map (fun r => if hasKey k r then applyChanges c r else r) rs = rs.
Proof.
  induction rs as [|r rs IH]; intros H; simpl; [reflexivity |].
  assert (Hr : hasKey k r = false) by (apply hasKey_false, H; now left).
  rewrite Hr. f_equal. apply IH. intros r' Hin. apply H. now right.
Qed.

Lemma map_fixed {A} (f : A -> A) (l : list A) :
  (forall x, In x l -> f x = x) -> map f l = l.
Proof.
  induction l as [|x l IH]; intros H; simpl; [reflexivity |].
  rewrite (H x (or_introl eq_refl)). f_equal.
  apply IH. intros y Hy. apply H. now right.
Qed.

(** X8: adding a task and then deleting it, when the store performs both
    calls, gives back the rows that a well-formed table held; the key
    generator has moved on, so the key of the deleted task is not given
    again. *)
Theorem insert_then_delete_restores_rows (w : World Page.State) :
  table_wf (storeTable (idb w)) ->
  Page.editingTask (ui w) = None ->
  trim (Page.newTaskTitle (ui w)) <> [] ->
  env w (clock w) = Resolve ->
  env w (S (S (clock w))) = Resolve ->
  let k := nextKey (storeTable (idb w)) in
  let w1 := snd (Page.handleSubmit w) in
  let w2 := snd (Page.deleteTask (Some k) w1) in
  In (Some k) (map id (storeRows (idb w1)))
  /\ storeRows (idb w2) = storeRows (idb w)
  /\ nextKey (storeTable (idb w2)) = (k + 1)%Z.
Proof.
  intros [_ Hwf] He Ht H0 H2 k w1 w2.
  destruct (handleSubmit_insert_resolved w He Ht H0) as [Hdb [Henv [Hclk _]]].
  fold w1 in Hdb, Henv, Hclk.
  pose proof (deleteTask_effect w1 k) as [_ Hd]. fold w2 in Hd.
  rewrite Henv, Hclk, H2 in Hd. destruct Hd as [Hd _].
  assert (Hrows : storeRows (idb w1)
                  = storeRows (idb w) ++ [withId k (typedTask (ui w))])
    by (rewrite Hdb; reflexivity).
  split.
  { rewrite Hrows, map_app. apply in_app_iff. right. now left. }
  unfold storeRows at 1. rewrite Hd, Hdb, storeTable_Some. cbn.
  split; [|reflexivity].
  rewrite List.filter_app. cbn.
  fold k. rewrite Z.eqb_refl. cbn. rewrite app_nil_r.
  apply delete_absent. intros r Hr Hid.
  destruct (keysAbove_In _ _ _ _ Hwf Hr) as [k' [Hk' Hlt]].
  rewrite Hk' in Hid. injection Hid as ->. unfold k in Hlt. lia.
Qed.

Lemma insert_then_delete_restores_rows_witness :
  let w := browser (formState (rows seededTable) (js "Почта") [] None)
             (Some seededTable) allResolve in
  storeRows (idb (snd (Page.deleteTask (Some 4%Z)
                         (snd (Page.handleSubmit w)))))
  = rows seededTable.
Proof.
  intros w.
  assert (Ht : trim (Page.newTaskTitle (ui w)) <> []) by (vm_compute; discriminate).
  exact (proj1 (proj2 (insert_then_delete_restores_rows w seededTable_wf
                         eq_refl Ht eq_refl eq_refl))).
Defined.

(** X9: saving the edit of a task that the store no longer holds (it was
    deleted meanwhile) changes no row, and the page still reports the update
    as done: the number of rows that [update] resolves to is not looked at.
    The editing marker is cleared. *)
Theorem stale_edit_reports_success (w : World Page.State) (edited : Task)
    (k : Z) :
  Page.editingTask (ui w) = Some edited ->
  id edited = Some k ->
  trim (Page.newTaskTitle (ui w)) <> [] ->
  (forall r, In r (storeRows (idb w)) -> id r <> Some k) ->
  env w (clock w) = Resolve ->
  let w' := snd (Page.handleSubmit w) in
  storeRows (idb w') = storeRows (idb w)
  /\ Page.editingTask (ui w') = None
  /\ exists later,
       Page.notifications (ui w')
       = Page.notifications (ui w)
           ++ {| Page.n_id := Page.notificationIdCounter (ui w);
                 Page.n_message := Page.msgUpdated;
                 Page.n_type := Page.success |} :: later.
Proof.
  intros He Hk Ht Habs H0 w'. split.
  { unfold w'. rewrite (handleSubmit_edit_store w edited He Ht), H0, Hk.
    now apply update_absent. }
  clear Habs. unfold w'. destruct w as [u d e c a]. cbn in *.
  unfold_page. handler_cases; try contradiction; try congruence.
  all: split; [reflexivity |].
  all: rewrite <- ?app_assoc; cbn; eexists; reflexivity.
Qed.

Lemma stale_edit_reports_success_witness :
  let gone :=
    {| id := Some 9%Z; title := js "Почта"; description := Some [];
       status := active |} in
  let w := browser (formState (rows seededTable) (js "Почта") [] (Some gone))
             (Some seededTable) allResolve in
  storeRows (idb (snd (Page.handleSubmit w))) = rows seededTable.
Proof.
  intros gone w.
  assert (Ht : trim (Page.newTaskTitle (ui w)) <> []) by (vm_compute; discriminate).
  assert (Habs : forall r, In r (storeRows (idb w)) -> id r <> Some 9%Z).
  { intros r [<- | [<- | [<- | []]]]; discriminate. }
  exact (proj1 (stale_edit_reports_success w gone 9%Z eq_refl eq_refl Ht Habs
                  eq_refl)).
Defined.

Lemma editTask_effect (w : World Page.State) (task : Task) :
  let w1 := snd (Page.editTask task w) in
  fst (Page.editTask task w) = Normal tt
  /\ idb w1 = idb w /\ env w1 = env w /\ clock w1 = clock w
  /\ awaits w1 = awaits w
  /\ Page.editingTask (ui w1) = Some task
  /\ Page.newTaskTitle (ui w1) = title task
  /\ Page.newTaskDescription (ui w1)
     = match description task with
       | Some d => d
       | None => []
       end
  /\ Page.tasks (ui w1) = Page.tasks (ui w).
Proof.
  destruct w as [u d e c a]. unfold Page.editTask. run_async.
  repeat split. now destruct (description task) as [[|x l]|].
Qed.

Lemma handleSubmit_resets_form_aux (w : World Page.State) :
  trim (Page.newTaskTitle (ui w)) <> [] ->
  let w' := snd (Page.handleSubmit w) in
  fst (Page.handleSubmit w) = Normal tt
  /\ Page.editingTask (ui w') = None
  /\ Page.newTaskTitle (ui w') = []
  /\ Page.newTaskDescription (ui w') = [].
Proof.
  destruct w as [u d e c a]. cbn. intros Ht.
  unfold_page. handler_cases; try contradiction; repeat split; assumption.
Qed.

(** X10: opening a task of a well-formed table in the form and saving it
    without a change leaves every row of the store as it was, when the row
    is as the form writes rows (trimmed, with a title and a description);
    the editing marker is cleared. *)
Theorem edit_then_save_without_change (w : World Page.State) (r : Task) :
  table_wf (storeTable (idb w)) ->
  In r (storeRows (idb w)) ->
  Tidy r ->
  let w' := snd (Page.handleSubmit (snd (Page.editTask r w))) in
  storeRows (idb w') = storeRows (idb w)
  /\ Page.editingTask (ui w') = None.
Proof.
  intros [_ Hwf] Hr [Hn [Ht [dsc [Hd Hdt]]]] w'.
  destruct (editTask_effect w r)
    as [_ [Hdb [Henv [Hclk [_ [He [Htitle [Hdesc _]]]]]]]].
  set (w1 := snd (Page.editTask r w)) in *.
  assert (Hnb : trim (Page.newTaskTitle (ui w1)) <> [])
    by (rewrite Htitle, Ht; exact Hn).
  split.
  - unfold w'. rewrite (handleSubmit_edit_store w1 r He Hnb), Hdb.
    destruct (env w1 (clock w1)); [|reflexivity].
    destruct (id r) as [k|] eqn:Hk; [|reflexivity].
    apply map_fixed. intros r' Hr'.
    destruct (hasKey k r') eqn:Hh; [|reflexivity].
    apply hasKey_true in Hh.
    assert (r' = r) as ->
      by (apply (keysAbove_unique _ _ _ _ _ Hwf Hr' Hr); congruence).
    unfold typedChanges, applyChanges. rewrite Htitle, Hdesc, Hd, Ht, Hdt.
    destruct r; cbn in *. congruence.
  - exact (proj1 (proj2 (handleSubmit_resets_form_aux w1 Hnb))).
Qed.

Lemma edit_then_save_without_change_witness :
  let r :=
    {| id := Some 2%Z; title := js "Завершить отчет";
       description := Some (js "Подготовить презентацию для встречи");
       status := active |} in
  let w := browser (formState (rows seededTable) [] [] None)
             (Some seededTable) allReject in
  storeRows (idb (snd (Page.handleSubmit (snd (Page.editTask r w)))))
  = rows seededTable.
Proof.
  intros r w.
  refine (proj1 (edit_then_save_without_change w r seededTable_wf _ _)).
  - right. left. reflexivity.
  - repeat split; try discriminate. eexists. split; reflexivity.
Defined.

(** X11: a submission that fails the validation of the title leaves the
    form as the user filled it (title, description, editing marker and
    search), so that the title can be corrected; nothing is written to the
    console. *)
Theorem blank_title_keeps_the_form (w : World Page.State) :
  Blank (Page.newTaskTitle (ui w)) ->
  let w' := snd (Page.handleSubmit w) in
  Page.newTaskTitle (ui w') = Page.newTaskTitle (ui w)
  /\ Page.newTaskDescription (ui w') = Page.newTaskDescription (ui w)
  /\ Page.editingTask (ui w') = Page.editingTask (ui w)
  /\ Page.searchQuery (ui w') = Page.searchQuery (ui w)
  /\ Page.console (ui w') = Page.console (ui w).
Proof.
  destruct w as [u d e c a]. cbn. intros Hb.
  apply trim_empty in Hb.
  unfold_page. rewrite Hb. cbn. repeat split.
Qed.

Lemma blank_title_keeps_the_form_witness :
  let edited :=
    {| id := Some 3%Z; title := js "Позвонить другу";
       description := Some (js "Узнать как дела"); status := completed |} in
  let w := browser (formState (rows seededTable) (js " ") (js "x") (Some edited))
             (Some seededTable) allResolve in
  Page.editingTask (ui (snd (Page.handleSubmit w))) = Some edited.
Proof.
  intros edited w.
  assert (H : Blank (Page.newTaskTitle (ui w))) by (apply trim_empty; reflexivity).
  exact (proj1 (proj2 (proj2 (blank_title_keeps_the_form w H)))).
Defined.

Lemma filter_fresh_notification (l : list Page.Notification) (c : Z) :
  Forall (fun n => (Page.n_id n < c)%Z) l ->
  List.filter (fun n => negb (Page.n_id n =? c)%Z) l = l.
Proof.
  induction 1 as [|n l Hn _ IH]; simpl; [reflexivity |].
  assert (H : (Page.n_id n =? c)%Z = false) by (apply Z.eqb_neq; lia).
  rewrite H. simpl. now f_equal.
Qed.

Lemma filter_fresh_timer (ts : list (Z * Z)) (c : Z) :
  Forall (fun t => (snd t < c)%Z) ts ->
  List.filter (fun t => negb (snd t =? c)%Z) ts = ts.
Proof.
  induction 1 as [|t ts Ht _ IH]; simpl; [reflexivity |].
  assert (H : (snd t =? c)%Z = false) by (apply Z.eqb_neq; lia).
  rewrite H. simpl. now f_equal.
Qed.

(** X12: a notification is shown until its timer fires and is then removed
    alone: with fresh identifiers, [addNotification] followed by the
    callback of its timer gives back the notifications and the timers that
    were there; the callback of a timer keeps, in order, the notifications
    of the other identifiers; and running it a second time changes
    nothing. *)
Theorem notification_removed_by_its_timer (w : World Page.State)
    (message : jsstring) (type : Page.NotificationType) (i : Z) :
  NotificationsFresh (ui w) ->
  let shown := snd (Page.addNotification message type w) in
  let mine := Page.notificationIdCounter (ui w) in
  let removed := snd (Page.dismissNotification mine shown) in
  let once := snd (Page.dismissNotification i w) in
  Page.notifications (ui shown)
  = Page.notifications (ui w)
      ++ [{| Page.n_id := mine; Page.n_message := message;
             Page.n_type := type |}]
  /\ Page.notifications (ui removed) = Page.notifications (ui w)
  /\ Page.timers (ui removed) = Page.timers (ui w)
  /\ Page.notifications (ui once)
     = List.filter (fun n => negb (Page.n_id n =? i)%Z)
         (Page.notifications (ui w))
  /\ snd (Page.dismissNotification i once) = once.
Proof.
  destruct w as [u d e c a]. unfold NotificationsFresh. cbn.
  intros [_ [Hl Hts]].
  unfold Page.addNotification, Page.dismissNotification. run_async.
  repeat split.
  - rewrite List.filter_app, (filter_fresh_notification _ _ Hl). cbn.
    rewrite Z.eqb_refl. cbn. apply app_nil_r.
  - rewrite List.filter_app, (filter_fresh_timer _ _ Hts). cbn.
    rewrite Z.eqb_refl. cbn. apply app_nil_r.
  - unfold Page.set_timers, Page.set_notifications. cbn.
    now rewrite !filter_filter_same.
Qed.

Lemma notification_removed_by_its_timer_witness :
  let w := snd (Page.loadTasks (firstVisit allReject)) in
  NotificationsFresh (ui w)
  /\ Page.notifications
       (ui (snd (Page.dismissNotification 1%Z
                   (snd (Page.addNotification Page.msgAdded Page.success w)))))
     = Page.notifications (ui w).
Proof.
  intros w.
  assert (H : NotificationsFresh (ui w)).
  { unfold NotificationsFresh. vm_compute. repeat split.
    - apply NoDup_singleton.
    - repeat constructor.
    - repeat constructor. }
  split; [exact H |].
  exact (proj1 (proj2 (notification_removed_by_its_timer w Page.msgAdded
                         Page.success 0%Z H))).
Defined.

(** X13: no event of the page throws, and none leaves the loading flag set
    once it is cleared, whatever the store answers: after the first
    [onMount] the skeleton is never left on the screen. *)
Theorem loading_never_stuck :
  (forall w ev,
     fst (runEvent ev w) = Normal tt
     /\ (Page.isLoading (ui w) = false ->
         Page.isLoading (ui (snd (runEvent ev w))) = false))
  /\ (forall outcomes evs,
        Page.isLoading
          (ui (runEvents (EvMount :: evs) (firstVisit outcomes))) = false).
Proof.
  assert (Hstep : forall w ev,
    fst (runEvent ev w) = Normal tt
    /\ (Page.isLoading (ui w) = false ->
        Page.isLoading (ui (snd (runEvent ev w))) = false)).
  { intros [u d e c a] ev. cbn.
    destruct ev as [| |task|[k|]|i|v|v|v]; unfold_event; handler_cases.
    all: split; [reflexivity | intros H; first [reflexivity | exact H]]. }
  split; [exact Hstep |].
  intros outcomes evs. simpl.
  apply (runEvents_invariant (fun w => Page.isLoading (ui w) = false)).
  - intros w ev. exact (proj2 (Hstep w ev)).
  - unfold firstVisit, browser, Page.onMount. unfold_event.
    handler_cases; reflexivity.
Qed.

Lemma loading_never_stuck_witness :
  let w := browser (formState [] (js "Почта") [] None) None allReject in
  Page.isLoading (ui w) = false
  /\ Page.isLoading (ui (snd (runEvent EvSubmit w))) = false.
Proof.
  intros w. split; [reflexivity |].
  exact (proj2 (proj1 loading_never_stuck w EvSubmit) eq_refl).
Defined.

(** X14: deleting a key that the store does not hold, when the store
    performs the delete and the listing, changes no row and is reported as a
    success like any other; and after a deletion the store holds no row of
    that key, so that deleting the same task twice is of this kind. *)
Theorem deleteTask_of_absent_key (w : World Page.State) (k : Z) :
  env w (clock w) = Resolve ->
  env w (S (clock w)) = Resolve ->
  let w' := snd (Page.deleteTask (Some k) w) in
  (forall r, In r (storeRows (idb w')) -> id r <> Some k)
  /\ ((forall r, In r (storeRows (idb w)) -> id r <> Some k) ->
      storeRows (idb w') = storeRows (idb w)
      /\ Page.tasks (ui w') = storeRows (idb w)
      /\ Page.notifications (ui w')
         = Page.notifications (ui w)
             ++ [{| Page.n_id := Page.notificationIdCounter (ui w);
                    Page.n_message := Page.msgDeleted;
                    Page.n_type := Page.success |}]).
Proof.
  intros H0 H1 w'.
  pose proof (deleteTask_effect w k) as [_ He]. fold w' in He.
  rewrite H0, H1 in He. destruct He as [Ht [_ [Hn Hs]]].
  specialize (Hs eq_refl).
  assert (Hrows : storeRows (idb w')
                  = List.filter (fun r => negb (hasKey k r)) (storeRows (idb w)))
    by (unfold storeRows; now rewrite Ht).
  split.
  - intros r Hr. rewrite Hrows in Hr. apply filter_In in Hr as [_ Hr].
    now apply hasKey_false, negb_true_iff.
  - intros Habs. rewrite Hrows, Hs, Hn. cbn.
    change (rows (storeTable (idb w))) with (storeRows (idb w)).
    rewrite (delete_absent k _ Habs), app_nil_r. repeat split.
Qed.

Lemma deleteTask_of_absent_key_witness :
  storeRows (idb (snd (Page.deleteTask (Some 9%Z) (firstVisit allResolve))))
  = rows seededTable.
Proof.
  refine (proj1 (proj2 (deleteTask_of_absent_key (firstVisit allResolve) 9%Z
                          eq_refl eq_refl) _)).
  intros r [<- | [<- | [<- | []]]]; discriminate.
Defined.

(** ** The page with the modal dialog *)

Ltac flow_cases :=
  repeat first
    [ progress cbn
    | rewrite awaitTable_eq
    | match goal with
      | H : ?e ?c = _ |- context [match ?e ?c with _ => _ end] => rewrite H
      | H : trim ?s = _ |- context [trim ?s] => rewrite H
      | H : ModalPage.editingTask ?u = _
        |- context [ModalPage.editingTask ?u] => rewrite H
      | H : ModalPage.confirmAction ?u = _
        |- context [ModalPage.confirmAction ?u] => rewrite H
      | H : PlainPage.editingTask ?u = _
        |- context [PlainPage.editingTask ?u] => rewrite H
      | |- context [match ?e ?c with Resolve => _ | Reject _ => _ end] =>
          destruct (e c) eqn:?
      | |- context [truthy (trim ?s)] => destruct (trim s) eqn:?
      | |- context [match ModalPage.editingTask ?u with _ => _ end] =>
          destruct (ModalPage.editingTask u) eqn:?
      | |- context [match ModalPage.confirmAction ?u with _ => _ end] =>
          destruct (ModalPage.confirmAction u) as [[?]|] eqn:?
      | |- context [match PlainPage.editingTask ?u with _ => _ end] =>
          destruct (PlainPage.editingTask u) eqn:?
      | |- context [table_update (id ?t)] => destruct (id t) eqn:?
      end ].

Ltac unfold_modal :=
  unfold ModalForm.handleSubmit, ModalForm.handleConfirm,
    ModalForm.callConfirmAction, ModalForm.editTask, ModalForm.onMount,
    ModalPage.deleteTask, ModalPage.loadTasks, ModalPage.showAlert,
    ModalPage.showConfirm, ModalPage.closeModal, ModalPage.consoleLog,
    ModalPage.consoleError, awaitTableDetached;
  run_async.

(** X15: in the page with the modal dialog [deleteTask] only asks: it makes
    no call to the store and leaves database and snapshot as they are, with
    the dialog open on the confirmation that holds the deletion; closing the
    dialog then drops the deletion, still without a call, and gives back the
    very world there was when the dialog was closed before. *)
Theorem modal_delete_waits_for_confirmation (w : World ModalPage.State)
    (k : Z) :
  let asked := snd (ModalPage.deleteTask (Some k) w) in
  let cancelled := snd (ModalPage.closeModal asked) in
  (awaits asked = awaits w /\ idb asked = idb w
   /\ ModalPage.tasks (ui asked) = ModalPage.tasks (ui w)
   /\ ModalPage.showModal (ui asked) = true
   /\ ModalPage.isConfirmModal (ui asked) = true
   /\ ModalPage.confirmAction (ui asked) = Some (ModalPage.ConfirmDelete k))
  /\ (awaits cancelled = awaits w /\ idb cancelled = idb w
      /\ ModalPage.tasks (ui cancelled) = ModalPage.tasks (ui w)
      /\ ModalPage.showModal (ui cancelled) = false
      /\ ModalPage.confirmAction (ui cancelled) = None)
  /\ (ModalPage.showModal (ui w) = false ->
      ModalPage.modalMessage (ui w) = [] ->
      ModalPage.isConfirmModal (ui w) = false ->
      ModalPage.confirmAction (ui w) = None ->
      cancelled = w).
Proof.
  destruct w as [u d e c a]. unfold_modal. repeat split.
  destruct u. cbn. intros -> -> -> ->. reflexivity.
Qed.

Lemma modal_delete_waits_for_confirmation_witness :
  let w := browser ModalForm.initialState (Some seededTable) allResolve in
  snd (ModalPage.closeModal (snd (ModalPage.deleteTask (Some 1%Z) w))) = w.
Proof.
  intros w.
  exact (proj2 (proj2 (modal_delete_waits_for_confirmation w 1%Z))
           eq_refl eq_refl eq_refl eq_refl).
Defined.

(** X16: confirming the deletion.  [handleConfirm] run on the pending
    deletion of key [k] never throws and leaves no deletion pending; the
    dialog that it closes is open again on an alert when it completes.  When
    the store performs the delete, the rows of key [k] are gone from the
    store, and the snapshot is reloaded and the alert tells the success when
    the listing resolves, while the alert tells the failure of the load when
    it rejects; when the store rejects the delete, database and snapshot
    are as before and the alert tells the failure.  With nothing pending,
    [handleConfirm] only closes the dialog. *)
Theorem modal_confirm_runs_the_deletion (w : World ModalPage.State) (k : Z) :
  let asked := snd (ModalPage.deleteTask (Some k) w) in
  let done := snd (ModalForm.handleConfirm asked) in
  fst (ModalForm.handleConfirm asked) = Normal tt
  /\ ModalPage.confirmAction (ui done) = None
  /\ ModalPage.showModal (ui done) = true
  /\ ModalPage.isConfirmModal (ui done) = false
  /\ match env w (clock w) with
     | Reject _ =>
         idb done = idb w
         /\ ModalPage.tasks (ui done) = ModalPage.tasks (ui w)
         /\ ModalPage.modalMessage (ui done) = Page.msgDeleteFailed
         /\ awaits done = awaits w ++ [(CallDelete k, ui asked)]
     | Resolve =>
         storeRows (idb done)
         = List.filter (fun r => negb (hasKey k r)) (storeRows (idb w))
         /\ match env w (S (clock w)) with
            | Resolve =>
                ModalPage.tasks (ui done) = storeRows (idb done)
                /\ ModalPage.modalMessage (ui done) = Page.msgDeleted
            | Reject _ =>
                ModalPage.tasks (ui done) = ModalPage.tasks (ui w)
                /\ ModalPage.modalMessage (ui done) = Page.msgLoadFailed
            end
     end
  /\ (ModalPage.confirmAction (ui w) = None ->
      ModalForm.handleConfirm w = ModalPage.closeModal w).
Proof.
  destruct w as [u d e c a]. unfold_modal.
  split; [|split; [|split; [|split; [|split]]]].
  1-5: flow_cases; repeat split.
  intros H. flow_cases. reflexivity.
Qed.

Lemma modal_confirm_runs_the_deletion_witness :
  let w := browser ModalForm.initialState None allResolve in
  ModalPage.confirmAction (ui w) = None
  /\ ModalForm.handleConfirm w = ModalPage.closeModal w.
Proof.
  intros w. split; [reflexivity |].
  exact (proj2 (proj2 (proj2 (proj2 (proj2
           (modal_confirm_runs_the_deletion w 1%Z))))) eq_refl).
Defined.

(** X17: [handleSubmit] of the page with the modal dialog never throws and
    always ends on an alert.  With a blank title the alert is the
    validation message, the store is not called and the form is kept.
    Otherwise the form is reset and the loading flag cleared, and, of the
    alerts raised, the dialog shows the last: the failure of the reload
    when the listing rejects, whatever became of the write, and else the
    outcome of the insert or update. *)
Theorem modal_submit_ends_on_an_alert (w : World ModalPage.State) :
  let w' := snd (ModalForm.handleSubmit w) in
  fst (ModalForm.handleSubmit w) = Normal tt
  /\ ModalPage.showModal (ui w') = true
  /\ ModalPage.isConfirmModal (ui w') = false
  /\ match trim (ModalPage.newTaskTitle (ui w)) with
     | [] =>
         awaits w' = awaits w /\ idb w' = idb w
         /\ ModalPage.modalMessage (ui w') = Page.msgEmptyTitle
         /\ ModalPage.newTaskTitle (ui w') = ModalPage.newTaskTitle (ui w)
         /\ ModalPage.newTaskDescription (ui w')
            = ModalPage.newTaskDescription (ui w)
         /\ ModalPage.editingTask (ui w') = ModalPage.editingTask (ui w)
     | _ :: _ =>
         ModalPage.newTaskTitle (ui w') = []
         /\ ModalPage.newTaskDescription (ui w') = []
         /\ ModalPage.editingTask (ui w') = None
         /\ ModalPage.isLoading (ui w') = false
         /\ ModalPage.modalMessage (ui w')
            = match env w (S (clock w)) with
              | Reject _ => Page.msgLoadFailed
              | Resolve =>
                  match ModalPage.editingTask (ui w), env w (clock w) with
                  | None, Resolve => Page.msgAdded
                  | None, Reject _ => Page.msgAddFailed
                  | Some edited, Resolve =>
                      match id edited with
                      | Some _ => Page.msgUpdated
                      | None => Page.msgUpdateFailed
                      end
                  | Some _, Reject _ => Page.msgUpdateFailed
                  end
              end
     end.
Proof.
  destruct w as [u d e c a]. unfold_modal.
  flow_cases; repeat split; assumption.
Qed.

(** ** The page with [alert] and [confirm] *)

Ltac unfold_plain :=
  unfold PlainPage.handleSubmit, PlainPage.deleteTask, PlainPage.loadTasks,
    PlainPage.onMount, PlainPage.editTask, PlainPage.alert, PlainPage.confirm,
    PlainPage.consoleLog, PlainPage.consoleError;
  run_async.

(** X18: in the page with [confirm], [deleteTask] calls the store only with
    the consent of the user: without a key nothing happens at all, and when
    the user declines, the only trace is the question asked; with consent
    and a store that performs the delete and the listing, store and snapshot
    are the rows that do not bear the key. *)
Theorem plain_delete_needs_consent (w : World PlainPage.State) (k : Z) :
  (forall answer, PlainPage.deleteTask answer None w = (Normal tt, w))
  /\ (let w' := snd (PlainPage.deleteTask false (Some k) w) in
      awaits w' = awaits w /\ idb w' = idb w /\ clock w' = clock w
      /\ PlainPage.tasks (ui w') = PlainPage.tasks (ui w)
      /\ PlainPage.confirms (ui w')
         = PlainPage.confirms (ui w) ++ [ModalPage.msgConfirmDelete]
      /\ PlainPage.console (ui w') = PlainPage.console (ui w))
  /\ (env w (clock w) = Resolve -> env w (S (clock w)) = Resolve ->
      let w' := snd (PlainPage.deleteTask true (Some k) w) in
      storeRows (idb w')
      = List.filter (fun r => negb (hasKey k r)) (storeRows (idb w))
      /\ PlainPage.tasks (ui w') = storeRows (idb w')).
Proof.
  destruct w as [u d e c a]. cbn. split; [|split].
  - intros answer. reflexivity.
  - unfold_plain. repeat split.
  - intros H0 H1. unfold_plain. flow_cases. repeat split.
Qed.

Lemma plain_delete_needs_consent_witness :
  let w := browser PlainPage.initialState None allResolve in
  map id (PlainPage.tasks (ui (snd (PlainPage.deleteTask true (Some 1%Z) w))))
  = [Some 2; Some 3]%Z.
Proof.
  intros w.
  rewrite (proj2 (proj2 (proj2 (plain_delete_needs_consent w 1%Z))
                    eq_refl eq_refl)).
  rewrite (proj1 (proj2 (proj2 (plain_delete_needs_consent w 1%Z))
                    eq_refl eq_refl)).
  reflexivity.
Defined.

(** X19: in the page with [alert] and [confirm] a failure of the store is
    written to the console and nowhere else.  The handlers never throw and
    raise no alert for it; when the first call of a handler rejects, the
    rows of the store and the snapshot of a failed load or deletion are as
    before, and a submission has nonetheless emptied the form: what was
    typed is lost without a message. *)
Theorem plain_store_failures_are_silent (w : World PlainPage.State) :
  fst (PlainPage.loadTasks w) = Normal tt
  /\ fst (PlainPage.handleSubmit w) = Normal tt
  /\ (forall answer key, fst (PlainPage.deleteTask answer key w) = Normal tt)
  /\ PlainPage.alerts (ui (snd (PlainPage.loadTasks w))) = PlainPage.alerts (ui w)
  /\ (forall answer key,
        PlainPage.alerts (ui (snd (PlainPage.deleteTask answer key w)))
        = PlainPage.alerts (ui w))
  /\ (trim (PlainPage.newTaskTitle (ui w)) <> [] ->
      PlainPage.alerts (ui (snd (PlainPage.handleSubmit w)))
      = PlainPage.alerts (ui w))
  /\ (forall e, env w (clock w) = Reject e ->
        PlainPage.tasks (ui (snd (PlainPage.loadTasks w)))
        = PlainPage.tasks (ui w)
        /\ (forall k,
              PlainPage.tasks (ui (snd (PlainPage.deleteTask true (Some k) w)))
              = PlainPage.tasks (ui w)
              /\ idb (snd (PlainPage.deleteTask true (Some k) w)) = idb w)
        /\ (trim (PlainPage.newTaskTitle (ui w)) <> [] ->
            let w' := snd (PlainPage.handleSubmit w) in
            storeRows (idb w') = storeRows (idb w)
            /\ PlainPage.newTaskTitle (ui w') = []
            /\ PlainPage.newTaskDescription (ui w') = []
            /\ PlainPage.editingTask (ui w') = None
            /\ exists entry,
                 PlainPage.console (ui w')
                 = PlainPage.console (ui w) ++ entry
                 /\ Forall (fun c => Page.c_level c = Page.LevelError) entry
                 /\ entry <> [])).
Proof.
  destruct w as [u d e c a]. cbn.
  split; [|split; [|split; [|split; [|split; [|split]]]]].
  - unfold_plain. flow_cases; reflexivity.
  - unfold_plain. flow_cases; reflexivity.
  - intros [|] [k|]; unfold_plain; flow_cases; reflexivity.
  - unfold_plain. flow_cases; reflexivity.
  - intros [|] [k|]; unfold_plain; flow_cases; reflexivity.
  - intros Ht. unfold_plain. flow_cases; try contradiction; reflexivity.
  - intros e0 He. split; [|split].
    + unfold_plain. flow_cases. reflexivity.
    + intros k. unfold_plain. flow_cases. split; reflexivity.
    + intros Ht. unfold_plain. flow_cases; try contradiction.
      all: unfold storeRows; rewrite ?storeTable_Some.
      all: repeat split; try assumption.
      all: rewrite <- ?app_assoc; eexists; split; [reflexivity |].
      all: split; [repeat constructor | discriminate].
Qed.

Lemma plain_store_failures_are_silent_witness :
  let w :=
    browser (PlainPage.set_newTaskTitle (js "Почта") PlainPage.initialState)
      (Some seededTable) allReject in
  trim (PlainPage.newTaskTitle (ui w)) <> []
  /\ PlainPage.alerts (ui (snd (PlainPage.handleSubmit w))) = [].
Proof.
  intros w.
  assert (Ht : trim (PlainPage.newTaskTitle (ui w)) <> [])
    by (vm_compute; discriminate).
  split; [exact Ht |].
  exact (proj1 (proj2 (proj2 (proj2 (proj2 (proj2
           (plain_store_failures_are_silent w)))))) Ht).
Defined.

(** ** What is rendered *)

Lemma filteredTasks_empty_query {CM : CaseMapping} (ts : list Task) :
  filteredTasks ts [] = ts.
Proof. unfold filteredTasks. now rewrite toLowerCase_empty. Qed.

Lemma messages_differ : msgNoTasks <> msgNotFound.
Proof. vm_compute. discriminate. Qed.

(** X20: what the list of the page shows.  The skeleton is shown exactly
    while loading.  The invitation to add a first task is shown exactly when
    nothing is loading, the search field is empty and the snapshot has no
    task; the message that nothing was found is shown exactly when nothing
    is loading, the search field is not empty and the filtered view is
    empty, so also for a query of spaces over an empty snapshot.  Otherwise
    there is one card for each task of the filtered view, in its order and
    with its key. *)
Theorem renderList_cases (CM : CaseMapping) (p : Page.State) :
  let view := filteredTasks (Page.tasks p) (Page.searchQuery p) in
  (renderList p = Skeleton 4 <-> Page.isLoading p = true)
  /\ (renderList p = EmptyMessage msgNoTasks
      <-> Page.isLoading p = false /\ Page.searchQuery p = []
          /\ Page.tasks p = [])
  /\ (renderList p = EmptyMessage msgNotFound
      <-> Page.isLoading p = false /\ Page.searchQuery p <> [] /\ view = [])
  /\ (forall cards,
        renderList p = Grid cards
        <-> Page.isLoading p = false /\ view <> []
            /\ cards = map renderCard view)
  /\ (forall cards,
        renderList p = Grid cards -> map card_key cards = map id view).
Proof.
  intros view. unfold renderList. fold view.
  pose proof messages_differ as Hm. revert Hm.
  generalize msgNoTasks as none, msgNotFound as unfound. intros none unfound Hm.
  destruct (Page.isLoading p) eqn:Hl.
  { repeat split; try discriminate; try tauto.
    all: intros; intuition discriminate. }
  assert (Hq : Page.searchQuery p = [] -> view = Page.tasks p).
  { intros H. unfold view. rewrite H. apply filteredTasks_empty_query. }
  destruct view as [|t v] eqn:Hv.
  - destruct (Page.searchQuery p) as [|x q] eqn:Hs; cbn.
    + specialize (Hq eq_refl). repeat split; try discriminate.
      all: try (intros; intuition (try discriminate; congruence)).
    + repeat split; try discriminate.
      all: try (intros; intuition (try discriminate; congruence)).
  - split; [split; intros; discriminate |].
    split.
    { split; [discriminate |]. intros [_ [Hs Ht]].
      rewrite <- (Hq Hs) in Ht. discriminate. }
    split; [split; [discriminate | intros [_ [_ H]]; discriminate] |].
    split.
    + intros cards. split.
      * intros H. injection H as <-. repeat split. discriminate.
      * intros [_ [_ ->]]. reflexivity.
    + intros cards H. injection H as <-.
      change (map card_key (map renderCard (t :: v)) = map id (t :: v)).
      rewrite map_map. reflexivity.
Qed.

Lemma renderList_cases_witness :
  let p := ui (snd (Page.onMount (firstVisit allReject))) in
  @renderList basicCaseMapping p = EmptyMessage msgNoTasks.
Proof.
  intros p.
  apply (proj2 (proj1 (proj2 (renderList_cases basicCaseMapping p)))).
  repeat split.
Defined.

(** X21: the editing marker, which the button of the form shows.
    [editTask] sets it (the button reads "save changes"); a submission with
    a title clears it (the button reads "add task"); no other event touches
    it: in particular deleting the task that is being edited leaves the
    form editing it. *)
Theorem editing_marker_lifecycle (w : World Page.State) :
  (forall task,
     Page.editingTask (ui (snd (runEvent (EvEdit task) w))) = Some task
     /\ submitLabel (ui (snd (runEvent (EvEdit task) w))) = labelSave)
  /\ (trim (Page.newTaskTitle (ui w)) <> [] ->
      submitLabel (ui (snd (runEvent EvSubmit w))) = labelAdd)
  /\ (forall ev,
        match ev with
        | EvEdit _ | EvSubmit => True
        | _ =>
            Page.editingTask (ui (snd (runEvent ev w)))
            = Page.editingTask (ui w)
        end)
  /\ (forall task,
        let editing := snd (runEvent (EvEdit task) w) in
        Page.editingTask
          (ui (snd (runEvent (EvDelete (id task)) editing))) = Some task).
Proof.
  assert (Hsub : trim (Page.newTaskTitle (ui w)) <> [] ->
                 submitLabel (ui (snd (runEvent EvSubmit w))) = labelAdd).
  { intros Ht. unfold submitLabel, runEvent.
    now rewrite (proj1 (proj2 (handleSubmit_resets_form_aux w Ht))). }
  destruct w as [u d e c a]. cbn in *. split; [|split; [|split]].
  - intros task. unfold_event. split; reflexivity.
  - exact Hsub.
  - intros ev. destruct ev as [| |task|[k|]|i|v|v|v]; try exact I.
    all: unfold_event; handler_cases; reflexivity.
  - intros task. unfold_event. destruct (id task) as [k|].
    + unfold_page. handler_cases; reflexivity.
    + reflexivity.
Qed.

Lemma editing_marker_lifecycle_witness :
  let w := browser (formState [] (js "Почта") [] None) None allReject in
  trim (Page.newTaskTitle (ui w)) <> []
  /\ submitLabel (ui (snd (runEvent EvSubmit w))) = labelAdd.
Proof.
  intros w.
  assert (Ht : trim (Page.newTaskTitle (ui w)) <> [])
    by (vm_compute; discriminate).
  split; [exact Ht |].
  exact (proj1 (proj2 (editing_marker_lifecycle w)) Ht).
Defined.
